(** * Referee-box task specification states (mir_robocup_states)

    A shallow embedding of [referee_box_states.py]: the four smach states
    [get_task], [re_get_task], [get_basic_transportation_task] and
    [get_basic_competitive_task], together with the Python string, list and
    regular-expression primitives their [execute] methods rely on.

    Conventions of the embedding.
    - A Python [str] is a [string]; one-character strings obtained by
      indexing are [ascii] values.
    - Python integers are [Z]; indices and slice bounds follow Python's
      rules for negative and out-of-range values.
    - An uncaught Python exception is the [Raise] result of the monad [M];
      the mutable [userdata.task_list] is the state the monad threads, so
      that the elements appended before an exception or an early [return]
      stay visible to the caller, as they do for the shared list object.
    - [rospy] logging calls have no influence on control flow or on
      [userdata] and are left out.
    - The module-level names [tasks] and [referee_box_communication] are
      taken to resolve to the modules of [mir_robocup_states_common]. *)

From Stdlib Require Import String Ascii List ZArith Lia Bool Permutation.
Import ListNotations.

Local Open Scope list_scope.
Local Open Scope Z_scope.

Infix "+++" := String.append (right associativity, at level 60).

(** ** Python primitives *)

Module Py.

Inductive Exn : Type :=
| IndexError
| KeyError
| UnboundLocalError.

Inductive Res (A : Type) : Type :=
| Ok (a : A)
| Raise (e : Exn).
Arguments Ok {A} a.
Arguments Raise {A} e.

(** [len(s)] *)
Definition len (s : string) : Z := Z.of_nat (String.length s).

Fixpoint drop (n : nat) (s : string) : string :=
  match n, s with
  | O, _ => s
  | S _, EmptyString => EmptyString
  | S n', String _ s' => drop n' s'
  end.

Fixpoint take (n : nat) (s : string) : string :=
  match n, s with
  | O, _ => EmptyString
  | S _, EmptyString => EmptyString
  | S n', String c s' => String c (take n' s')
  end.

(** A slice bound [i] of a sequence of length [l]: negative bounds count
    from the end, and the result is clipped to [0..l]. *)
Definition bound (l i : Z) : nat :=
  Z.to_nat (Z.max 0 (Z.min l (if i <? 0 then i + l else i))).

(** [s[lo:hi]]; never raises. *)
Definition slice (s : string) (lo hi : Z) : string :=
  let a := bound (len s) lo in
  let b := bound (len s) hi in
  take (b - a) (drop a s).

(** [s[i]]; raises [IndexError] out of range. *)
Definition getitem (s : string) (i : Z) : Res ascii :=
  let j := if i <? 0 then i + len s else i in
  if (j <? 0) || (len s <=? j) then Raise IndexError
  else match String.get (Z.to_nat j) s with
       | Some c => Ok c
       | None => Raise IndexError
       end.

(** [l[i]] on a list; raises [IndexError] out of range. *)
Definition list_getitem {A : Type} (l : list A) (i : Z) : Res A :=
  let n := Z.of_nat (List.length l) in
  let j := if i <? 0 then i + n else i in
  if (j <? 0) || (n <=? j) then Raise IndexError
  else match nth_error l (Z.to_nat j) with
       | Some x => Ok x
       | None => Raise IndexError
       end.

(** [s.split(sep)] for a one-character separator. *)
Fixpoint split (sep : ascii) (s : string) : list string :=
  match s with
  | EmptyString => [EmptyString]
  | String c s' =>
      if Ascii.eqb c sep then EmptyString :: split sep s'
      else match split sep s' with
           | h :: t => String c h :: t
           | [] => [String c EmptyString]
           end
  end.

Definition newline : ascii := "010"%char.

(** The lazy body [.*?] followed by the closing character: the shortest
    run of characters other than newline that is followed by [close].
    Returns the run and the text after the closing character. *)
Fixpoint lazy_until (close : ascii) (s : string) : option (string * string) :=
  match s with
  | EmptyString => None
  | String c s' =>
      if Ascii.eqb c close then Some (EmptyString, s')
      else if Ascii.eqb c newline then None
      else match lazy_until close s' with
           | Some (w, r) => Some (String c w, r)
           | None => None
           end
  end.

(** [re.findall] for the patterns [\<(?P<name>.*?)\>] and
    [\((?P<name>.*?)\)]: the group contents of the successive
    non-overlapping matches, scanning from the left.  A start position
    that cannot be completed is given up and the scan resumes at the next
    character. *)
Fixpoint findall_fuel (fuel : nat) (open close : ascii) (s : string)
  : list string :=
  match fuel with
  | O => []
  | S fuel' =>
      match s with
      | EmptyString => []
      | String c s' =>
          if Ascii.eqb c open then
            match lazy_until close s' with
            | Some (w, r) => w :: findall_fuel fuel' open close r
            | None => findall_fuel fuel' open close s'
            end
          else findall_fuel fuel' open close s'
      end
  end.

Definition findall (open close : ascii) (s : string) : list string :=
  findall_fuel (String.length s) open close s.

(** *** State and exception monad *)

Definition M (S A : Type) : Type := S -> Res A * S.

Definition ret {S A : Type} (a : A) : M S A := fun st => (Ok a, st).

Definition bind {S A B : Type} (m : M S A) (k : A -> M S B) : M S B :=
  fun st =>
    match m st with
    | (Ok a, st') => k a st'
    | (Raise e, st') => (Raise e, st')
    end.

Definition lift {S A : Type} (r : Res A) : M S A := fun st => (r, st).

Definition get_state {S : Type} : M S S := fun st => (Ok st, st).

Definition modify {S : Type} (f : S -> S) : M S unit :=
  fun st => (Ok tt, f st).

(** [for x in l: body(x)] *)
Fixpoint for_each {S A : Type} (body : A -> M S unit) (l : list A)
  : M S unit :=
  match l with
  | [] => ret tt
  | x :: l' => bind (body x) (fun _ => for_each body l')
  end.

End Py.

Import Py.

Notation "x <- c1 ;; c2" := (Py.bind c1 (fun x => c2))
  (at level 61, c1 at next level, right associativity).
Notation "c1 ;;; c2" := (Py.bind c1 (fun _ => c2))
  (at level 61, right associativity).

(** ** Data *)

(** The outcomes the states declare. *)
Inductive Outcome : Type :=
| task_received
| wrong_task_format.

(** The [Bunch] class: an object whose attributes are exactly the keyword
    arguments it was built with.  [location] and [object_names] are given at every
    construction site; the other attributes are present at some sites only,
    [None] standing for an attribute the object does not have. *)
Record Bunch : Type := mkBunch {
  type : option string;
  location : string;
  orientation : option string;
  task : option string;
  object_names : list string;
  object_config : option string
}.

(** The loop [for i in range(len(objs)): if objs[i] == "V20": objs[i] = "R20"]. *)
Definition rename_V20 (objs : list string) : list string :=
  map (fun o => if String.eqb o "V20" then "R20"%string else o) objs.

(** ** get_basic_transportation_task *)

Module get_basic_transportation_task.

(** Body of the loop over [init_tasks]. *)
Definition init_item (item : string) : M (list Bunch) unit :=
  let desired_loc := slice item 0 2 in
  let obj_taskspec := slice item 3 (len item) in
  let objs := findall "(" ")" obj_taskspec in
  objs0 <- lift (list_getitem objs 0) ;;
  let objs := split "," objs0 in
  let objs := rename_V20 objs in
  let obj_conf := split "(" obj_taskspec in
  obj_conf <- lift (list_getitem obj_conf 0) ;;
  let initial_tasklist :=
    mkBunch (Some "source"%string) desired_loc None None objs None in
  modify (fun task_list => task_list ++ [initial_tasklist]).

(** Body of the loop over [goal_tasks]. *)
Definition goal_item (item : string) : M (list Bunch) unit :=
  let desired_loc := slice item 0 2 in
  let obj_taskspec := slice item 3 (len item) in
  let objs := findall "(" ")" obj_taskspec in
  objs0 <- lift (list_getitem objs 0) ;;
  let objs := split "," objs0 in
  let objs := rename_V20 objs in
  let obj_conf := split "(" obj_taskspec in
  obj_conf <- lift (list_getitem obj_conf 0) ;;
  let goal_tasklist :=
    mkBunch (Some "destination"%string) desired_loc None None objs
            (Some obj_conf) in
  modify (fun task_list => task_list ++ [goal_tasklist]).

(** [execute], from the point where [transportation_task] has been
    received from the referee box; the state is [userdata.task_list]. *)
Definition execute (transportation_task : string)
  : M (list Bunch) Outcome :=
  if negb (String.eqb (slice transportation_task 0 3) "BTT")
  then ret wrong_task_format
  else
    let transportation_task :=
      slice transportation_task 3 (len transportation_task) in
    first <- lift (getitem transportation_task 0) ;;
    malformed <-
      (if negb (Ascii.eqb first "<") then ret true
       else last <- lift (getitem transportation_task
                                  (len transportation_task - 1)) ;;
            ret (negb (Ascii.eqb last ">"))) ;;
    if (malformed : bool) then ret wrong_task_format
    else
      let transportation_task :=
        slice transportation_task 1 (len transportation_task - 1) in
      let task_situation := split ";" transportation_task in
      initial_situation <- lift (list_getitem task_situation 0) ;;
      if negb (String.eqb (slice initial_situation 0 16) "initialsituation")
      then ret wrong_task_format
      else
        let initial_situation :=
          slice initial_situation 16 (len initial_situation) in
        let init_tasks := findall "<" ">" initial_situation in
        for_each init_item init_tasks ;;;
        goal_situation <- lift (list_getitem task_situation 1) ;;
        if negb (String.eqb (slice goal_situation 0 13) "goalsituation")
        then ret wrong_task_format
        else
          let goal_situation :=
            slice goal_situation 13 (len goal_situation) in
          let goal_tasks := findall "<" ">" goal_situation in
          for_each goal_item goal_tasks ;;;
          ret task_received.

End get_basic_transportation_task.

(** ** get_basic_competitive_task *)

Module get_basic_competitive_task.

(** The part of the activation of [execute] that the loops change:
    [userdata.task_list] and the local variable [base_orientation], which
    is unbound ([None]) until its first assignment and is shared by the two
    loops. *)
Record Frame : Type := mkFrame {
  task_list : list Bunch;
  base_orientation : option string
}.

Definition assign_base_orientation (v : string) : M Frame unit :=
  modify (fun fr => mkFrame (task_list fr) (Some v)).

(** Reading the local variable; [UnboundLocalError] before any assignment. *)
Definition read_base_orientation : M Frame string :=
  fr <- get_state ;;
  match base_orientation fr with
  | Some v => ret v
  | None => lift (Raise UnboundLocalError)
  end.

Definition append (b : Bunch) : M Frame unit :=
  modify (fun fr => mkFrame (task_list fr ++ [b]) (base_orientation fr)).

(** Body of the loop over [init_tasks]. *)
Definition init_item (item : string) : M Frame unit :=
  let desired_loc := slice item 0 2 in
  first <- lift (getitem item 0) ;;
  (if Ascii.eqb first "D" then assign_base_orientation "W"
   else if Ascii.eqb first "S" then assign_base_orientation "E"
   else ret tt) ;;;
  let obj_taskspec := slice item 3 (len item) in
  let objs := findall "(" ")" obj_taskspec in
  objs0 <- lift (list_getitem objs 0) ;;
  let objs := split "," objs0 in
  let obj_conf := split "(" obj_taskspec in
  obj_conf <- lift (list_getitem obj_conf 0) ;;
  orientation <- read_base_orientation ;;
  let initial_tasklist :=
    mkBunch None desired_loc (Some orientation)
            (Some "fetch object workspace"%string) objs (Some obj_conf) in
  append initial_tasklist.

(** Body of the loop over [goal_tasks]. *)
Definition goal_item (item : string) : M Frame unit :=
  let desired_loc := slice item 0 2 in
  first <- lift (getitem item 0) ;;
  (if Ascii.eqb first "D" then assign_base_orientation "W"
   else if Ascii.eqb first "S" then assign_base_orientation "E"
   else ret tt) ;;;
  let obj_taskspec := slice item 3 (len item) in
  let objs := findall "(" ")" obj_taskspec in
  objs0 <- lift (list_getitem objs 0) ;;
  let objs := split "," objs0 in
  let obj_conf := split "(" obj_taskspec in
  obj_conf <- lift (list_getitem obj_conf 0) ;;
  orientation <- read_base_orientation ;;
  let goal_tasklist :=
    mkBunch None desired_loc (Some orientation)
            (Some "place object in workspace"%string) objs (Some obj_conf) in
  append goal_tasklist.

Definition body (competitive_task : string) : M Frame Outcome :=
  if negb (String.eqb (slice competitive_task 0 3) "CTT")
  then ret wrong_task_format
  else
    let competitive_task :=
      slice competitive_task 3 (len competitive_task) in
    first <- lift (getitem competitive_task 0) ;;
    malformed <-
      (if negb (Ascii.eqb first "<") then ret true
       else last <- lift (getitem competitive_task
                                  (len competitive_task - 1)) ;;
            ret (negb (Ascii.eqb last ">"))) ;;
    if (malformed : bool) then ret wrong_task_format
    else
      let competitive_task :=
        slice competitive_task 1 (len competitive_task - 1) in
      let task_situation := split ";" competitive_task in
      initial_situation <- lift (list_getitem task_situation 0) ;;
      if negb (String.eqb (slice initial_situation 0 16) "initialsituation")
      then ret wrong_task_format
      else
        let initial_situation :=
          slice initial_situation 16 (len initial_situation) in
        let init_tasks := findall "<" ">" initial_situation in
        for_each init_item init_tasks ;;;
        goal_situation <- lift (list_getitem task_situation 1) ;;
        if negb (String.eqb (slice goal_situation 0 13) "goalsituation")
        then ret wrong_task_format
        else
          let goal_situation :=
            slice goal_situation 13 (len goal_situation) in
          let goal_tasks := findall "<" ">" goal_situation in
          for_each goal_item goal_tasks ;;;
          ret task_received.

(** [execute], from the point where [competitive_task] has been received
    from the referee box; the state is [userdata.task_list].  Every
    activation starts with [base_orientation] unbound. *)
Definition execute (competitive_task : string) : M (list Bunch) Outcome :=
  fun tl =>
    let (r, fr) := body competitive_task (mkFrame tl None) in
    (r, task_list fr).

End get_basic_competitive_task.

(** ** get_task and re_get_task *)

(** One call of [referee_box_communication.obtainTaskSpecFromServer]. *)
Record Request : Type := mkRequest {
  req_ip : string;
  req_port : string;
  req_team_name : string;
  req_flag : option bool
}.

Definition port : string := "11111".
Definition team_name : string := "b-it-bots".

Module userdata.

(** The keys of the smach userdata the two states use.  [task] and
    [task_spec_copy] are unset ([None]) until a state writes them. *)
Record t (Task : Type) : Type := mk {
  test : string;
  simulation : bool;
  task : option Task;
  task_spec_copy : option string
}.
Arguments mk {Task} _ _ _ _.
Arguments test {Task} _.
Arguments simulation {Task} _.
Arguments task {Task} _.
Arguments task_spec_copy {Task} _.

End userdata.

Section Referee.

(** The structured task built by [tasks.parse_task], a function of the
    package [mir_robocup_states_common] that returns a task or raises
    [TaskSpecFormatError] ([None]). *)
Variable Task : Type.
Variable parse_task : string -> string -> option Task.

(** The answer of the referee box to a request, and the module-level [ip]
    (the [refbox_ip] parameter, or the hard-coded address). *)
Variable obtainTaskSpecFromServer : Request -> string.
Variable ip : string.

Definition HARDCODED_SPECS : list (string * string) :=
  [ ("BNT", "BNT<(D,W,3),(S1,E,3),(T3,N,3),(S3,S,3),(T1,S,3),(D1,E,3),(S4,N,3),(S5,N,3),(T4,W,3),(T2,S,3),(S2,E,3),(EXIT,E,3)>");
    ("BMT", "BMT<D1,D1,D1,line(F20_20_B,R20,M20_100),D1>");
    ("BTT", "BTT<initialsituation(<S1,(M20_100,S40_40_G)><S2,(F20_20_G,S40_40_B,F20_20_B)>);goalsituation(<S3,line(S40_40_G,F20_20_G)><D1,zigzag(F20_20_B,S40_40_B,M20_100)>)>");
    ("PPT", "PPT<S6,S5>") ]%string.

(** [d[key]] on a dictionary given by its items; [KeyError] when absent. *)
Fixpoint dict_getitem (d : list (string * string)) (key : string)
  : Res string :=
  match d with
  | [] => Raise KeyError
  | (k, v) :: d' => if String.eqb k key then Ok v else dict_getitem d' key
  end.

(** The first statement of [get_task.execute]: the specification string
    and the requests sent to the referee box to obtain it. *)
Definition get_task_spec (ud : userdata.t Task)
  : Res string * list Request :=
  if negb (userdata.simulation ud) then
    let rq := mkRequest ip port team_name (Some true) in
    (Ok (obtainTaskSpecFromServer rq), [rq])
  else (dict_getitem HARDCODED_SPECS (userdata.test ud), []).

(** [get_task.execute]: the outcome, the userdata afterwards and the
    requests sent to the referee box. *)
Definition get_task_execute (ud : userdata.t Task)
  : Res Outcome * userdata.t Task * list Request :=
  match get_task_spec ud with
  | (Raise e, sent) => (Raise e, ud, sent)
  | (Ok task_spec, sent) =>
      let ud :=
        userdata.mk (userdata.test ud) (userdata.simulation ud)
                    (userdata.task ud) (Some task_spec) in
      match parse_task (userdata.test ud) task_spec with
      | Some tk =>
          (Ok task_received,
           userdata.mk (userdata.test ud) (userdata.simulation ud)
                       (Some tk) (userdata.task_spec_copy ud),
           sent)
      | None => (Ok wrong_task_format, ud, sent)
      end
  end.

(** [re_get_task.execute]; reading an unset [task_spec_copy] is a
    [KeyError]. *)
Definition re_get_task_execute (ud : userdata.t Task)
  : Res Outcome * userdata.t Task :=
  match userdata.task_spec_copy ud with
  | None => (Raise KeyError, ud)
  | Some task_spec =>
      match parse_task (userdata.test ud) task_spec with
      | Some tk =>
          (Ok task_received,
           userdata.mk (userdata.test ud) (userdata.simulation ud)
                       (Some tk) (userdata.task_spec_copy ud))
      | None => (Ok wrong_task_format, ud)
      end
  end.

End Referee.

Arguments get_task_spec {Task} _ _ _.
Arguments get_task_execute {Task} _ _ _ _.
Arguments re_get_task_execute {Task} _ _.

(** ** Module-level address of the referee box *)

(** [rospy.get_param(name)] on the parameters of the node; [KeyError] when
    the parameter is not set. *)
Definition get_param (params : list (string * string)) (name : string)
  : Res string :=
  dict_getitem params name.

(** The module-level [ip]: the parameter [refbox_ip], or the hard-coded
    address when [get_param] raises [KeyError]. *)
Definition module_ip (params : list (string * string)) : Res string :=
  match get_param params "refbox_ip" with
  | Ok v => Ok v
  | Raise KeyError => Ok "192.168.51.167"%string
  | Raise e => Raise e
  end.

(** * Vocabulary of the statements *)

(** [c in s] *)
Fixpoint contains (c : ascii) (s : string) : bool :=
  match s with
  | EmptyString => false
  | String x s' => Ascii.eqb x c || contains c s'
  end.

(** The text [<i1><i2>...<in>] of the entries [i1 ... in]. *)
Fixpoint entries (items : list string) : string :=
  match items with
  | [] => EmptyString
  | it :: rest => String "<" (it +++ String ">" (entries rest))
  end.

(** An entry free of [>] and of newlines is matched whole. *)
Definition plain_entry (item : string) : bool :=
  negb (contains ">" item) && negb (contains newline item).

Inductive SituationTask : Type :=
| BTT
| CTT.

(** The tag each state checks for. *)
Definition tag (t : SituationTask) : string :=
  match t with
  | BTT => "BTT"
  | CTT => "CTT"
  end.

Definition execute_of (t : SituationTask) : string -> M (list Bunch) Outcome :=
  match t with
  | BTT => get_basic_transportation_task.execute
  | CTT => get_basic_competitive_task.execute
  end.

(** A parser used to run the states on concrete data: the specification is
    accepted, and kept as it is, when it starts with the test name. *)
Definition tagged_parse (test spec : string) : option string :=
  if String.prefix test spec then Some spec else None.

(** The object tokens of an entry, as a successful loop body stores them:
    the first parenthesised group after the location, split on commas,
    with the deprecated [V20] renamed. *)
Definition objects_of (item : string) : list string :=
  rename_V20
    (split "," (hd EmptyString (findall "(" ")" (slice item 3 (len item))))).

(** The text between the location and the first opening parenthesis. *)
Definition configuration_of (item : string) : string :=
  hd EmptyString (split "(" (slice item 3 (len item))).

Definition has_group (item : string) : bool :=
  match findall "(" ")" (slice item 3 (len item)) with
  | [] => false
  | _ :: _ => true
  end.

Definition source_entry (item : string) : Bunch :=
  mkBunch (Some "source"%string) (slice item 0 2) None None
          (objects_of item) None.

Definition destination_entry (item : string) : Bunch :=
  mkBunch (Some "destination"%string) (slice item 0 2) None None
          (objects_of item) (Some (configuration_of item)).

(** [label(<i1>...<in>)] *)
Definition situation (label : string) (items : list string) : string :=
  label +++ "(" +++ entries items +++ ")".

(** [tag<body>] *)
Definition envelope (tg body : string) : string :=
  tg +++ "<" +++ body +++ ">".

(** The specification string with the given entries in its two situations. *)
Definition transportation_spec (initial goal : list string) : string :=
  envelope "BTT"
    (situation "initialsituation" initial +++ ";" +++
     situation "goalsituation" goal).

(** Entries the grammar of the referee box produces: no [>], newline or
    [;] inside, and a parenthesised object group after the location. *)
Definition well_formed_entry (item : string) : bool :=
  plain_entry item && negb (contains ";" item) && has_group item.

Definition example_initial : list string :=
  ["S1,(M20_100,S40_40_G)"; "S2,(F20_20_G,S40_40_B,F20_20_B)"]%string.

Definition example_goal : list string :=
  ["S3,line(S40_40_G,F20_20_G)";
   "D1,zigzag(F20_20_B,S40_40_B,M20_100)"]%string.

(** Entries whose location starts with [D] or [S], the two letters the
    competitive state has an orientation for. *)
Definition oriented (item : string) : bool :=
  match item with
  | String c _ => Ascii.eqb c "D" || Ascii.eqb c "S"
  | EmptyString => false
  end.

Definition orientation_of (item : string) : string :=
  match item with
  | String c _ => if Ascii.eqb c "D" then "W" else "E"
  | EmptyString => EmptyString
  end.

(** The object tokens of an entry as the competitive state stores them. *)
Definition raw_objects_of (item : string) : list string :=
  split "," (hd EmptyString (findall "(" ")" (slice item 3 (len item)))).

Definition fetch_entry (item : string) : Bunch :=
  mkBunch None (slice item 0 2) (Some (orientation_of item))
          (Some "fetch object workspace"%string) (raw_objects_of item)
          (Some (configuration_of item)).

Definition place_entry (item : string) : Bunch :=
  mkBunch None (slice item 0 2) (Some (orientation_of item))
          (Some "place object in workspace"%string) (raw_objects_of item)
          (Some (configuration_of item)).

Definition competitive_spec (initial goal : list string) : string :=
  envelope "CTT"
    (situation "initialsituation" initial +++ ";" +++
     situation "goalsituation" goal).

(** The text between the outer [<] and [>], as [execute] cuts it out. *)
Definition envelope_body (s : string) : string :=
  let r := slice s 3 (len s) in
  slice r 1 (len r - 1).

(** What the loop over the entries of the initial situation [f0] appends
    to an empty task list. *)
Definition initial_records (t : SituationTask) (f0 : string) : list Bunch :=
  let items := findall "<" ">" (slice f0 16 (len f0)) in
  match t with
  | BTT => snd (for_each get_basic_transportation_task.init_item items [])
  | CTT =>
      get_basic_competitive_task.task_list
        (snd (for_each get_basic_competitive_task.init_item items
                (get_basic_competitive_task.mkFrame [] None)))
  end.

(** What a computation does to a frame, seen from the empty task list. *)
Definition framed {A : Type} (m : M get_basic_competitive_task.Frame A)
  : Prop :=
  forall tl bo,
    let r := m (get_basic_competitive_task.mkFrame [] bo) in
    m (get_basic_competitive_task.mkFrame tl bo)
    = (fst r,
       get_basic_competitive_task.mkFrame
         (tl ++ get_basic_competitive_task.task_list (snd r))
         (get_basic_competitive_task.base_orientation (snd r))).

Definition remainder (s : string) : string := slice s 3 (len s).

Definition passes_checks (t : SituationTask) (s : string) : Prop :=
  slice s 0 3 = tag t /\
  getitem (remainder s) 0 = Ok "<"%char /\
  getitem (remainder s) (len (remainder s) - 1) = Ok ">"%char /\
  exists f0 f1 rest,
    split ";" (envelope_body s) = f0 :: f1 :: rest /\
    slice f0 0 16 = "initialsituation"%string /\
    slice f1 0 13 = "goalsituation"%string.

(** The entries a loop handles before it meets one without a group. *)
Fixpoint good_prefix (items : list string) : list string :=
  match items with
  | [] => []
  | it :: rest => if has_group it then it :: good_prefix rest else []
  end.

(** A computation on the task list that only appends, and whose result and
    appended records do not depend on what the list held before. *)
Definition appending {A : Type} (m : M (list Bunch) A) : Prop :=
  forall tl, m tl = (fst (m []), tl ++ snd (m [])).

(** The first and second field of the body, and the entries found in them
    after the labels. *)
Definition initial_field (s : string) : string :=
  nth 0 (split ";" (envelope_body s)) EmptyString.

Definition goal_field (s : string) : string :=
  nth 1 (split ";" (envelope_body s)) EmptyString.

Definition initial_entries (s : string) : list string :=
  findall "<" ">" (slice (initial_field s) 16 (len (initial_field s))).

Definition goal_entries (s : string) : list string :=
  findall "<" ">" (slice (goal_field s) 13 (len (goal_field s))).

(** A property of the state that a computation keeps, whatever it returns
    or raises. *)
Definition preserves {S A : Type} (I : S -> Prop) (m : M S A) : Prop :=
  forall st, I st -> I (snd (m st)).

(** What every record appended by the competitive state looks like. *)
Definition competitive_record (b : Bunch) : Prop :=
  type b = None /\
  (String.length (location b) <= 2)%nat /\
  (orientation b = Some "W"%string \/ orientation b = Some "E"%string) /\
  (task b = Some "fetch object workspace"%string \/
   task b = Some "place object in workspace"%string) /\
  object_names b <> [] /\
  object_config b <> None.

(** What every record appended by the transportation state looks like. *)
Definition transportation_record (b : Bunch) : Prop :=
  (type b = Some "source"%string \/ type b = Some "destination"%string) /\
  (String.length (location b) <= 2)%nat /\
  orientation b = None /\
  task b = None /\
  object_names b <> [] /\
  ~ In "V20"%string (object_names b).

Definition competitive_frame (fr : get_basic_competitive_task.Frame) : Prop :=
  Forall competitive_record (get_basic_competitive_task.task_list fr) /\
  (get_basic_competitive_task.base_orientation fr = None \/
   get_basic_competitive_task.base_orientation fr = Some "W"%string \/
   get_basic_competitive_task.base_orientation fr = Some "E"%string).

(** The four checks after which [execute] returns [wrong_task_format], in
    the order of the code. *)
Inductive Check : Type :=
| PrefixCheck
| EnvelopeCheck
| InitialLabelCheck
| GoalLabelCheck.

(** The condition [r[0] != "<" or r[len(r) - 1] != ">"] holds, both
    characters being there to read. *)
Definition envelope_fails (r : string) : Prop :=
  exists c,
    getitem r 0 = Ok c /\
    (c <> "<"%char \/
     exists d, getitem r (len r - 1) = Ok d /\ d <> ">"%char).

Definition envelope_ok (r : string) : Prop :=
  getitem r 0 = Ok "<"%char /\ getitem r (len r - 1) = Ok ">"%char.

(** The loop over the entries of the initial situation ends without an
    exception. *)
Definition initial_loop_ok (t : SituationTask) (s : string) : Prop :=
  match t with
  | BTT =>
      fst (for_each get_basic_transportation_task.init_item
             (initial_entries s) []) = Ok tt
  | CTT =>
      fst (for_each get_basic_competitive_task.init_item (initial_entries s)
             (get_basic_competitive_task.mkFrame [] None)) = Ok tt
  end.

(** The run on [s] reaches the check [c], and the check fails. *)
Definition fails_at (t : SituationTask) (s : string) (c : Check) : Prop :=
  match c with
  | PrefixCheck => slice s 0 3 <> tag t
  | EnvelopeCheck => slice s 0 3 = tag t /\ envelope_fails (remainder s)
  | InitialLabelCheck =>
      slice s 0 3 = tag t /\ envelope_ok (remainder s) /\
      slice (initial_field s) 0 16 <> "initialsituation"%string
  | GoalLabelCheck =>
      slice s 0 3 = tag t /\ envelope_ok (remainder s) /\
      slice (initial_field s) 0 16 = "initialsituation"%string /\
      initial_loop_ok t s /\
      (2 <= List.length (split ";" (envelope_body s)))%nat /\
      slice (goal_field s) 0 13 <> "goalsituation"%string
  end.

(** The task list a failure at the check [c] leaves. *)
Definition list_after_failure (t : SituationTask) (s : string) (c : Check)
  (tl : list Bunch) : list Bunch :=
  match c with
  | GoalLabelCheck => tl ++ initial_records t (initial_field s)
  | _ => tl
  end.

(** * Facts about the Python primitives *)

Section StringFacts.

Lemma length_app (a b : string) :
  String.length (a +++ b) = (String.length a + String.length b)%nat.
Proof. induction a as [|c a IH]; simpl; [reflexivity | now rewrite IH]. Qed.

Lemma app_assoc_s (a b c : string) : (a +++ b) +++ c = a +++ b +++ c.
Proof. induction a as [|x a IH]; simpl; [reflexivity | now rewrite IH]. Qed.

Lemma app_empty_r (a : string) : a +++ EmptyString = a.
Proof. induction a as [|x a IH]; simpl; [reflexivity | now rewrite IH]. Qed.

Lemma drop_app (a b : string) : drop (String.length a) (a +++ b) = b.
Proof. induction a as [|x a IH]; simpl; [now destruct b | exact IH]. Qed.

Lemma take_app (a b : string) : take (String.length a) (a +++ b) = a.
Proof. induction a as [|x a IH]; simpl; [now destruct b | now rewrite IH]. Qed.

Lemma take_all (n : nat) (s : string) :
  (String.length s <= n)%nat -> take n s = s.
Proof.
  revert n; induction s as [|x s IH]; intros [|n] H; simpl in *;
    try reflexivity; try lia.
  now rewrite IH by lia.
Qed.

Lemma bound_nat (l k : nat) :
  bound (Z.of_nat l) (Z.of_nat k) = Nat.min k l.
Proof.
  unfold bound. destruct (Z.ltb_spec (Z.of_nat k) 0); lia.
Qed.

Lemma slice_nat (s : string) (a b : nat) :
  slice s (Z.of_nat a) (Z.of_nat b) =
  take (Nat.min b (String.length s) - Nat.min a (String.length s))
       (drop (Nat.min a (String.length s)) s).
Proof. unfold slice, len. now rewrite !bound_nat. Qed.

(** [(a + b)[0:len(a)] == a] *)
Lemma slice_prefix (a b : string) :
  slice (a +++ b) 0 (Z.of_nat (String.length a)) = a.
Proof.
  change 0 with (Z.of_nat 0). rewrite slice_nat, length_app.
  replace (Nat.min 0 _) with 0%nat by lia.
  replace (Nat.min _ _ - 0)%nat with (String.length a) by lia.
  simpl. apply take_app.
Qed.

(** [(a + b)[len(a):len(a + b)] == b] *)
Lemma slice_suffix (a b : string) :
  slice (a +++ b) (Z.of_nat (String.length a)) (len (a +++ b)) = b.
Proof.
  unfold len. rewrite slice_nat, length_app.
  replace (Nat.min (String.length a) _) with (String.length a) by lia.
  rewrite drop_app. apply take_all. lia.
Qed.

(** [(c + b + d)[1:len(c + b + d) - 1] == b] for characters [c] and [d]. *)
Lemma slice_envelope (c d : ascii) (b : string) :
  let s := String c (b +++ String d EmptyString) in
  slice s 1 (len s - 1) = b.
Proof.
  intros s. unfold slice, len.
  assert (L : String.length s = S (String.length b + 1)).
  { unfold s; simpl. now rewrite length_app. }
  rewrite L.
  replace (bound _ 1) with 1%nat by (unfold bound; simpl; lia).
  replace (bound _ _) with (S (String.length b)).
  2:{ unfold bound.
      destruct (Z.ltb_spec (Z.of_nat (S (String.length b + 1)) - 1) 0); lia. }
  unfold s; simpl.
  replace (String.length b - 0)%nat with (String.length b) by lia.
  apply take_app.
Qed.

Lemma getitem_nat (s : string) (k : nat) :
  (k < String.length s)%nat ->
  getitem s (Z.of_nat k) =
  match String.get k s with Some c => Ok c | None => Raise IndexError end.
Proof.
  intros H. unfold getitem, len. cbv zeta.
  assert (E1 : (Z.of_nat k <? 0) = false) by (apply Z.ltb_ge; lia).
  assert (E2 : (Z.of_nat (String.length s) <=? Z.of_nat k) = false)
    by (apply Z.leb_gt; lia).
  rewrite E1. cbv iota. rewrite E1, E2. simpl. now rewrite Nat2Z.id.
Qed.

Lemma getitem_0 (c : ascii) (s : string) : getitem (String c s) 0 = Ok c.
Proof. apply (getitem_nat (String c s) 0). simpl; lia. Qed.

Lemma get_app_last (s : string) (d : ascii) (r : string) :
  String.get (String.length s) (s +++ String d r) = Some d.
Proof. induction s as [|x s IH]; simpl; [reflexivity | exact IH]. Qed.

(** [(s + d)[len(s + d) - 1] == d] for a character [d]. *)
Lemma getitem_last (s : string) (d : ascii) :
  let t := s +++ String d EmptyString in
  getitem t (len t - 1) = Ok d.
Proof.
  intros t.
  assert (L : String.length t = S (String.length s)).
  { unfold t. rewrite length_app. simpl. lia. }
  replace (len t - 1) with (Z.of_nat (String.length s)) by (unfold len; lia).
  rewrite getitem_nat by lia.
  unfold t. now rewrite get_app_last.
Qed.

Lemma list_getitem_nat {A : Type} (l : list A) (k : nat) :
  (k < List.length l)%nat ->
  list_getitem l (Z.of_nat k) =
  match nth_error l k with Some x => Ok x | None => Raise IndexError end.
Proof.
  intros H. unfold list_getitem. cbv zeta.
  assert (E1 : (Z.of_nat k <? 0) = false) by (apply Z.ltb_ge; lia).
  assert (E2 : (Z.of_nat (List.length l) <=? Z.of_nat k) = false)
    by (apply Z.leb_gt; lia).
  rewrite E1. cbv iota. rewrite E1, E2. simpl. now rewrite Nat2Z.id.
Qed.

Lemma list_getitem_0 {A : Type} (x : A) (l : list A) :
  list_getitem (x :: l) 0 = Ok x.
Proof. apply (list_getitem_nat (x :: l) 0). simpl; lia. Qed.

Lemma list_getitem_1 {A : Type} (x y : A) (l : list A) :
  list_getitem (x :: y :: l) 1 = Ok y.
Proof. apply (list_getitem_nat (x :: y :: l) 1). simpl; lia. Qed.

Lemma list_getitem_nil {A : Type} (i : Z) :
  list_getitem (@nil A) i = Raise IndexError.
Proof.
  unfold list_getitem; simpl.
  destruct (Z.ltb_spec i 0) as [H|H].
  - rewrite Z.add_0_r. destruct (Z.ltb_spec i 0); [reflexivity | lia].
  - destruct (Z.ltb_spec i 0); [lia|].
    destruct (Z.leb_spec 0 i); [reflexivity | lia].
Qed.

Lemma list_getitem_0_inv {A : Type} (l : list A) (x : A) :
  list_getitem l 0 = Ok x -> exists t, l = x :: t.
Proof.
  destruct l as [|y t]; intros H.
  - rewrite list_getitem_nil in H. discriminate.
  - rewrite list_getitem_0 in H. inversion H; subst. now exists t.
Qed.

Lemma list_getitem_1_inv {A : Type} (x y : A) (t : list A) :
  list_getitem (x :: t) 1 = Ok y -> exists r, t = y :: r.
Proof.
  destruct t as [|z r]; intros H.
  - discriminate.
  - rewrite list_getitem_1 in H. inversion H; subst. now exists r.
Qed.

End StringFacts.

(** * Splitting and scanning *)

Section Scanning.

Lemma contains_app (c : ascii) (a b : string) :
  contains c (a +++ b) = contains c a || contains c b.
Proof.
  induction a as [|x a IH]; simpl; [reflexivity|].
  now rewrite IH, orb_assoc.
Qed.

Lemma split_not_nil (sep : ascii) (s : string) : split sep s <> [].
Proof.
  destruct s as [|c s]; simpl; [discriminate|].
  destruct (Ascii.eqb c sep); [discriminate|].
  destruct (split sep s); discriminate.
Qed.

Lemma split_cons (sep : ascii) (s : string) :
  exists h t, split sep s = h :: t.
Proof.
  destruct (split sep s) as [|h t] eqn:E.
  - now apply split_not_nil in E.
  - now exists h, t.
Qed.

(** [(a + sep + b).split(sep) == a.split(sep) + b.split(sep)] *)
Lemma split_app_sep (sep : ascii) (a b : string) :
  split sep (a +++ String sep b) = split sep a ++ split sep b.
Proof.
  induction a as [|c a IH]; simpl.
  - now rewrite Ascii.eqb_refl.
  - destruct (Ascii.eqb c sep).
    + now rewrite IH.
    + rewrite IH. destruct (split_cons sep a) as (h & t & E).
      now rewrite E.
Qed.

Lemma split_no_sep (sep : ascii) (s : string) :
  contains sep s = false -> split sep s = [s].
Proof.
  induction s as [|c s IH]; simpl; intros H; [reflexivity|].
  apply orb_false_iff in H as [H1 H2].
  now rewrite H1, IH.
Qed.

Lemma lazy_until_shorter (close : ascii) (s w r : string) :
  lazy_until close s = Some (w, r) ->
  (String.length r < String.length s)%nat.
Proof.
  revert w; induction s as [|c s IH]; simpl; intros w H; [discriminate|].
  destruct (Ascii.eqb c close).
  - inversion H; subst; lia.
  - destruct (Ascii.eqb c newline); [discriminate|].
    destruct (lazy_until close s) as [[w' r']|] eqn:E; [|discriminate].
    inversion H; subst. specialize (IH _ eq_refl). lia.
Qed.

(** Any fuel of at least the length of the text gives the same matches. *)
Lemma findall_fuel_enough (open close : ascii) (n : nat) :
  forall s m, (String.length s <= n)%nat -> (String.length s <= m)%nat ->
              findall_fuel n open close s = findall_fuel m open close s.
Proof.
  induction n as [|n IH]; intros s m Hn Hm.
  - destruct s; simpl in Hn; [|lia]. now destruct m.
  - destruct s as [|c s]; [now destruct m|].
    destruct m as [|m]; simpl in Hm; [lia|]. simpl in Hn. simpl.
    destruct (Ascii.eqb c open).
    + destruct (lazy_until close s) as [[w r]|] eqn:E.
      * apply lazy_until_shorter in E. f_equal. apply IH; lia.
      * apply IH; lia.
    + apply IH; lia.
Qed.

(** The defining equation of [findall]. *)
Lemma findall_step (open close c : ascii) (s : string) :
  findall open close (String c s) =
  if Ascii.eqb c open then
    match lazy_until close s with
    | Some (w, r) => w :: findall open close r
    | None => findall open close s
    end
  else findall open close s.
Proof.
  unfold findall. simpl.
  destruct (Ascii.eqb c open).
  - destruct (lazy_until close s) as [[w r]|] eqn:E.
    + apply lazy_until_shorter in E. f_equal.
      apply findall_fuel_enough; lia.
    + reflexivity.
  - reflexivity.
Qed.

Lemma lazy_until_found (close : ascii) (w r : string) :
  contains close w = false -> contains newline w = false ->
  lazy_until close (w +++ String close r) = Some (w, r).
Proof.
  induction w as [|c w IH]; simpl; intros H1 H2.
  - now rewrite Ascii.eqb_refl.
  - apply orb_false_iff in H1 as [H1 H1'].
    apply orb_false_iff in H2 as [H2 H2'].
    now rewrite H1, H2, IH.
Qed.

Lemma findall_skip (open close : ascii) (pre s : string) :
  contains open pre = false ->
  findall open close (pre +++ s) = findall open close s.
Proof.
  induction pre as [|c pre IH]; simpl; intros H; [reflexivity|].
  apply orb_false_iff in H as [H1 H2].
  now rewrite findall_step, H1, IH.
Qed.

Lemma findall_none (open close : ascii) (s : string) :
  contains open s = false -> findall open close s = [].
Proof.
  intros H. rewrite <- (app_empty_r s).
  now rewrite findall_skip.
Qed.

Lemma findall_entries (items : list string) (post : string) :
  Forall (fun it => plain_entry it = true) items ->
  contains "<" post = false ->
  findall "<" ">" (entries items +++ post) = items.
Proof.
  intros H Hpost. induction H as [|it items Hit _ IH]; simpl.
  - now apply findall_none.
  - apply andb_true_iff in Hit as [H1 H2].
    apply negb_true_iff in H1, H2.
    rewrite findall_step. simpl Ascii.eqb. cbv iota.
    rewrite app_assoc_s. simpl.
    rewrite lazy_until_found by assumption.
    now rewrite IH.
Qed.

Lemma contains_entries (c : ascii) (items : list string) :
  Ascii.eqb "<" c = false -> Ascii.eqb ">" c = false ->
  Forall (fun it => contains c it = false) items ->
  contains c (entries items) = false.
Proof.
  intros H1 H2 H.
  induction H as [|it items Hit _ IH]; cbn [contains entries]; [reflexivity|].
  rewrite H1, contains_app, Hit. cbn [contains orb]. now rewrite H2, IH.
Qed.

End Scanning.

(** * Tag, envelope and situations *)

Section Envelope.

Lemma tag_slice (tg rest : string) (n : Z) :
  n = len tg -> slice (tg +++ rest) 0 n = tg.
Proof. intros ->. apply slice_prefix. Qed.

Lemma tag_strip (tg rest : string) (n : Z) :
  n = len tg -> slice (tg +++ rest) n (len (tg +++ rest)) = rest.
Proof. intros ->. apply slice_suffix. Qed.

Lemma envelope_first (body : string) :
  getitem ("<" +++ body +++ ">") 0 = Ok "<"%char.
Proof. apply getitem_0. Qed.

Lemma envelope_last (body : string) :
  getitem ("<" +++ body +++ ">") (len ("<" +++ body +++ ">") - 1)
  = Ok ">"%char.
Proof. apply (getitem_last (String "<" body) ">"). Qed.

Lemma envelope_strip (body : string) :
  slice ("<" +++ body +++ ">") 1 (len ("<" +++ body +++ ">") - 1) = body.
Proof. apply (slice_envelope "<" ">" body). Qed.

Lemma split_semicolon (a b : string) :
  split ";" (a +++ ";" +++ b) = split ";" a ++ split ";" b.
Proof. apply (split_app_sep ";" a b). Qed.

Lemma contains_situation (c : ascii) (label : string) (items : list string) :
  contains c label = false ->
  Ascii.eqb "(" c = false -> Ascii.eqb ")" c = false ->
  Ascii.eqb "<" c = false -> Ascii.eqb ">" c = false ->
  Forall (fun it => contains c it = false) items ->
  contains c (situation label items) = false.
Proof.
  intros Hl H1 H2 H3 H4 H. unfold situation.
  rewrite contains_app, Hl. cbn [String.append contains orb].
  rewrite H1, contains_app, contains_entries by assumption.
  cbn [contains orb]. now rewrite H2.
Qed.

Lemma findall_situation (items : list string) :
  Forall (fun it => plain_entry it = true) items ->
  findall "<" ">" ("(" +++ entries items +++ ")") = items.
Proof.
  intros H. rewrite (findall_skip "<" ">" "(") by reflexivity.
  now apply findall_entries.
Qed.

End Envelope.

(** * The loops of the transportation state *)

Section Transportation.

Import get_basic_transportation_task.

Lemma init_item_run (item : string) (tl : list Bunch) :
  init_item item tl =
  if has_group item then (Ok tt, tl ++ [source_entry item])
  else (Raise IndexError, tl).
Proof.
  unfold init_item, has_group, source_entry, objects_of, bind, lift, modify.
  cbv zeta.
  destruct (findall "(" ")" (slice item 3 (len item))) as [|g gs].
  - now rewrite list_getitem_nil.
  - rewrite list_getitem_0.
    destruct (split_cons "(" (slice item 3 (len item))) as (h & t & E).
    rewrite E, list_getitem_0. reflexivity.
Qed.

Lemma goal_item_run (item : string) (tl : list Bunch) :
  goal_item item tl =
  if has_group item then (Ok tt, tl ++ [destination_entry item])
  else (Raise IndexError, tl).
Proof.
  unfold goal_item, has_group, destination_entry, objects_of,
    configuration_of, bind, lift, modify.
  cbv zeta.
  destruct (findall "(" ")" (slice item 3 (len item))) as [|g gs].
  - now rewrite list_getitem_nil.
  - rewrite list_getitem_0.
    destruct (split_cons "(" (slice item 3 (len item))) as (h & t & E).
    rewrite E, list_getitem_0. reflexivity.
Qed.

(** A loop whose body only appends: its effect on a list is its effect on
    the empty list, put after the list. *)
Lemma for_each_appends {A : Type} (body : A -> M (list Bunch) unit) :
  (forall x tl, body x tl = (fst (body x []), tl ++ snd (body x []))) ->
  forall items tl,
    for_each body items tl
    = (fst (for_each body items []), tl ++ snd (for_each body items [])).
Proof.
  intros Hb items. induction items as [|x items IH]; intros tl.
  - simpl. unfold ret. now rewrite app_nil_r.
  - simpl. unfold bind. rewrite (Hb x tl).
    destruct (body x []) as [[u|e] d] eqn:E; simpl.
    + rewrite (IH (tl ++ d)), (IH d). simpl. now rewrite app_assoc.
    + reflexivity.
Qed.

Lemma init_item_appends (x : string) (tl : list Bunch) :
  init_item x tl = (fst (init_item x []), tl ++ snd (init_item x [])).
Proof.
  rewrite !init_item_run. destruct (has_group x); simpl;
    [reflexivity | now rewrite app_nil_r].
Qed.

Lemma goal_item_appends (x : string) (tl : list Bunch) :
  goal_item x tl = (fst (goal_item x []), tl ++ snd (goal_item x [])).
Proof.
  rewrite !goal_item_run. destruct (has_group x); simpl;
    [reflexivity | now rewrite app_nil_r].
Qed.

Lemma for_each_init_ok (items : list string) (tl : list Bunch) :
  Forall (fun it => has_group it = true) items ->
  for_each init_item items tl = (Ok tt, tl ++ map source_entry items).
Proof.
  intros H. revert tl. induction H as [|x items Hx _ IH]; intros tl.
  - simpl. unfold ret. now rewrite app_nil_r.
  - simpl. unfold bind. rewrite init_item_run, Hx, IH.
    now rewrite <- app_assoc.
Qed.

Lemma for_each_goal_ok (items : list string) (tl : list Bunch) :
  Forall (fun it => has_group it = true) items ->
  for_each goal_item items tl = (Ok tt, tl ++ map destination_entry items).
Proof.
  intros H. revert tl. induction H as [|x items Hx _ IH]; intros tl.
  - simpl. unfold ret. now rewrite app_nil_r.
  - simpl. unfold bind. rewrite goal_item_run, Hx, IH.
    now rewrite <- app_assoc.
Qed.

Lemma rename_V20_clean (objs : list string) :
  ~ In "V20"%string (rename_V20 objs).
Proof.
  unfold rename_V20. intros H. apply in_map_iff in H as (o & E & _).
  destruct (String.eqb_spec o "V20"); [discriminate | congruence].
Qed.

Lemma for_each_init_Forall (P : Bunch -> Prop) (items : list string) :
  (forall it, P (source_entry it)) ->
  forall tl, Forall P tl ->
  Forall P (snd (for_each get_basic_transportation_task.init_item items tl)).
Proof.
  intros HP. induction items as [|x items IH]; intros tl H; [exact H|].
  simpl. unfold bind. rewrite init_item_run.
  destruct (has_group x); [|exact H].
  apply IH. apply Forall_app. split; [exact H|]. now repeat constructor.
Qed.

Lemma for_each_goal_Forall (P : Bunch -> Prop) (items : list string) :
  (forall it, P (destination_entry it)) ->
  forall tl, Forall P tl ->
  Forall P (snd (for_each get_basic_transportation_task.goal_item items tl)).
Proof.
  intros HP. induction items as [|x items IH]; intros tl H; [exact H|].
  simpl. unfold bind. rewrite goal_item_run.
  destruct (has_group x); [|exact H].
  apply IH. apply Forall_app. split; [exact H|]. now repeat constructor.
Qed.

End Transportation.

(** * The loops of the competitive state *)

Section Competitive.

Import get_basic_competitive_task.

Lemma init_item_framed (item : string) : framed (init_item item).
Proof.
  intros tl bo.
  unfold init_item, bind, lift, ret, modify, get_state,
    read_base_orientation, assign_base_orientation, append, bind, lift, ret.
  cbv zeta.
  destruct (getitem item 0) as [c|e]; [|simpl; now rewrite app_nil_r].
  destruct (Ascii.eqb c "D"); [|destruct (Ascii.eqb c "S")]; simpl;
    (destruct (list_getitem (findall "(" ")" _) 0);
     [|simpl; now rewrite app_nil_r]);
    (destruct (list_getitem (split "(" _) 0);
     [|simpl; now rewrite app_nil_r]);
    try (destruct bo); simpl; rewrite ?app_nil_r; reflexivity.
Qed.

Lemma goal_item_framed (item : string) : framed (goal_item item).
Proof.
  intros tl bo.
  unfold goal_item, bind, lift, ret, modify, get_state,
    read_base_orientation, assign_base_orientation, append, bind, lift, ret.
  cbv zeta.
  destruct (getitem item 0) as [c|e]; [|simpl; now rewrite app_nil_r].
  destruct (Ascii.eqb c "D"); [|destruct (Ascii.eqb c "S")]; simpl;
    (destruct (list_getitem (findall "(" ")" _) 0);
     [|simpl; now rewrite app_nil_r]);
    (destruct (list_getitem (split "(" _) 0);
     [|simpl; now rewrite app_nil_r]);
    try (destruct bo); simpl; rewrite ?app_nil_r; reflexivity.
Qed.

Lemma for_each_framed {A : Type} (body : A -> M Frame unit) :
  (forall x, framed (body x)) ->
  forall items, framed (for_each body items).
Proof.
  intros Hb items. induction items as [|x items IH]; intros tl bo.
  - simpl. now rewrite app_nil_r.
  - simpl. unfold bind. rewrite (Hb x tl bo).
    destruct (body x (mkFrame [] bo)) as [[u|e] [d bo']] eqn:E; simpl.
    + rewrite (IH (tl ++ d) bo'), (IH d bo'). simpl. now rewrite app_assoc.
    + reflexivity.
Qed.

Lemma init_item_run_oriented (item : string) (tl : list Bunch)
  (bo : option string) :
  oriented item = true -> has_group item = true ->
  init_item item (mkFrame tl bo)
  = (Ok tt, mkFrame (tl ++ [fetch_entry item]) (Some (orientation_of item))).
Proof.
  intros Ho Hg. destruct item as [|c r]; [discriminate|].
  unfold init_item, bind, lift, ret, modify, get_state,
    read_base_orientation, assign_base_orientation, append, bind, lift, ret.
  cbv zeta. rewrite getitem_0.
  unfold has_group in Hg. unfold fetch_entry, raw_objects_of, configuration_of.
  destruct (findall "(" ")" (slice (String c r) 3 (len (String c r))))
    as [|g gs]; [discriminate|].
  destruct (split_cons "(" (slice (String c r) 3 (len (String c r))))
    as (h & t & E).
  rewrite E, !list_getitem_0.
  cbn [oriented] in Ho. cbn [orientation_of hd].
  destruct (Ascii.eqb c "D"); [reflexivity|].
  cbn [orb] in Ho. now rewrite Ho.
Qed.

Lemma goal_item_run_oriented (item : string) (tl : list Bunch)
  (bo : option string) :
  oriented item = true -> has_group item = true ->
  goal_item item (mkFrame tl bo)
  = (Ok tt, mkFrame (tl ++ [place_entry item]) (Some (orientation_of item))).
Proof.
  intros Ho Hg. destruct item as [|c r]; [discriminate|].
  unfold goal_item, bind, lift, ret, modify, get_state,
    read_base_orientation, assign_base_orientation, append, bind, lift, ret.
  cbv zeta. rewrite getitem_0.
  unfold has_group in Hg. unfold place_entry, raw_objects_of, configuration_of.
  destruct (findall "(" ")" (slice (String c r) 3 (len (String c r))))
    as [|g gs]; [discriminate|].
  destruct (split_cons "(" (slice (String c r) 3 (len (String c r))))
    as (h & t & E).
  rewrite E, !list_getitem_0.
  cbn [oriented] in Ho. cbn [orientation_of hd].
  destruct (Ascii.eqb c "D"); [reflexivity|].
  cbn [orb] in Ho. now rewrite Ho.
Qed.

Lemma for_each_init_oriented (items : list string) :
  Forall (fun it => oriented it = true /\ has_group it = true) items ->
  forall tl bo, exists bo',
    for_each init_item items (mkFrame tl bo)
    = (Ok tt, mkFrame (tl ++ map fetch_entry items) bo').
Proof.
  intros H. induction H as [|x items [Ho Hg] _ IH]; intros tl bo.
  - exists bo. simpl. unfold ret. now rewrite app_nil_r.
  - simpl. unfold bind. rewrite init_item_run_oriented by assumption.
    destruct (IH (tl ++ [fetch_entry x]) (Some (orientation_of x)))
      as [bo' E].
    exists bo'. rewrite E. now rewrite <- app_assoc.
Qed.

Lemma for_each_goal_oriented (items : list string) :
  Forall (fun it => oriented it = true /\ has_group it = true) items ->
  forall tl bo, exists bo',
    for_each goal_item items (mkFrame tl bo)
    = (Ok tt, mkFrame (tl ++ map place_entry items) bo').
Proof.
  intros H. induction H as [|x items [Ho Hg] _ IH]; intros tl bo.
  - exists bo. simpl. unfold ret. now rewrite app_nil_r.
  - simpl. unfold bind. rewrite goal_item_run_oriented by assumption.
    destruct (IH (tl ++ [place_entry x]) (Some (orientation_of x)))
      as [bo' E].
    exists bo'. rewrite E. now rewrite <- app_assoc.
Qed.

End Competitive.

(** * The course of execute *)

Section Course.

Lemma transportation_spec_run (initial goal : list string)
  (tl : list Bunch) :
  Forall (fun it => well_formed_entry it = true) initial ->
  Forall (fun it => well_formed_entry it = true) goal ->
  get_basic_transportation_task.execute (transportation_spec initial goal) tl
  = (Ok task_received,
     tl ++ map source_entry initial ++ map destination_entry goal).
Proof.
  intros Hi Hg.
  unfold get_basic_transportation_task.execute, transportation_spec, envelope.
  cbv zeta.
  rewrite (tag_slice "BTT") by reflexivity.
  rewrite (tag_strip "BTT") by reflexivity.
  rewrite envelope_first, envelope_last, envelope_strip, split_semicolon.
  assert (Si : contains ";" (situation "initialsituation" initial) = false).
  { apply contains_situation; try reflexivity.
    eapply Forall_impl; [|exact Hi]. intros it W. cbv beta in W.
    unfold well_formed_entry in W.
    apply andb_true_iff in W as [W _]. apply andb_true_iff in W as [_ W].
    now apply negb_true_iff in W. }
  assert (Sg : contains ";" (situation "goalsituation" goal) = false).
  { apply contains_situation; try reflexivity.
    eapply Forall_impl; [|exact Hg]. intros it W. cbv beta in W.
    unfold well_formed_entry in W.
    apply andb_true_iff in W as [W _]. apply andb_true_iff in W as [_ W].
    now apply negb_true_iff in W. }
  rewrite (split_no_sep _ _ Si), (split_no_sep _ _ Sg).
  cbn [app]. rewrite list_getitem_0, list_getitem_1.
  unfold bind, lift, ret. rewrite String.eqb_refl, !Ascii.eqb_refl.
  cbn [negb]. unfold situation.
  rewrite (tag_slice "initialsituation") by reflexivity.
  rewrite (tag_strip "initialsituation") by reflexivity.
  rewrite (tag_slice "goalsituation") by reflexivity.
  rewrite (tag_strip "goalsituation") by reflexivity.
  rewrite !String.eqb_refl. cbn [negb].
  assert (W : forall it, well_formed_entry it = true ->
                         plain_entry it = true /\ has_group it = true).
  { intros it H. unfold well_formed_entry in H.
    apply andb_true_iff in H as [H H2]. now apply andb_true_iff in H as [H _]. }
  rewrite !findall_situation
    by (eapply Forall_impl; [|eassumption]; intros it H; now apply W).
  rewrite for_each_init_ok
    by (eapply Forall_impl; [|eassumption]; intros it H; now apply W).
  rewrite for_each_goal_ok
    by (eapply Forall_impl; [|eassumption]; intros it H; now apply W).
  now rewrite <- app_assoc.
Qed.

Lemma well_formed_parts (it : string) :
  well_formed_entry it = true ->
  plain_entry it = true /\ contains ";" it = false /\ has_group it = true.
Proof.
  unfold well_formed_entry. intros H.
  apply andb_true_iff in H as [H G]. apply andb_true_iff in H as [P S].
  apply negb_true_iff in S. now repeat split.
Qed.

Lemma competitive_spec_run (initial goal : list string) (tl : list Bunch) :
  Forall (fun it => well_formed_entry it = true) initial ->
  Forall (fun it => well_formed_entry it = true) goal ->
  Forall (fun it => oriented it = true) initial ->
  Forall (fun it => oriented it = true) goal ->
  get_basic_competitive_task.execute (competitive_spec initial goal) tl
  = (Ok task_received, tl ++ map fetch_entry initial ++ map place_entry goal).
Proof.
  intros Hi Hg Oi Og.
  unfold get_basic_competitive_task.execute, get_basic_competitive_task.body,
    competitive_spec, envelope.
  cbv zeta.
  rewrite (tag_slice "CTT") by reflexivity.
  rewrite (tag_strip "CTT") by reflexivity.
  rewrite envelope_first, envelope_last, envelope_strip, split_semicolon.
  assert (Si : contains ";" (situation "initialsituation" initial) = false).
  { apply contains_situation; try reflexivity.
    eapply Forall_impl; [|exact Hi]. intros it W. now apply well_formed_parts. }
  assert (Sg : contains ";" (situation "goalsituation" goal) = false).
  { apply contains_situation; try reflexivity.
    eapply Forall_impl; [|exact Hg]. intros it W. now apply well_formed_parts. }
  rewrite (split_no_sep _ _ Si), (split_no_sep _ _ Sg).
  cbn [app]. rewrite list_getitem_0, list_getitem_1.
  unfold bind, lift, ret. rewrite String.eqb_refl, !Ascii.eqb_refl.
  cbn [negb]. unfold situation.
  rewrite (tag_slice "initialsituation") by reflexivity.
  rewrite (tag_strip "initialsituation") by reflexivity.
  rewrite (tag_slice "goalsituation") by reflexivity.
  rewrite (tag_strip "goalsituation") by reflexivity.
  rewrite !String.eqb_refl. cbn [negb].
  rewrite (findall_situation initial)
    by (eapply Forall_impl; [|exact Hi]; intros it H;
        now apply well_formed_parts).
  rewrite (findall_situation goal)
    by (eapply Forall_impl; [|exact Hg]; intros it H;
        now apply well_formed_parts).
  assert (Ri : Forall (fun it => oriented it = true /\ has_group it = true)
                      initial).
  { apply Forall_forall. intros it Hin. split.
    - now apply (proj1 (Forall_forall _ _) Oi).
    - now apply well_formed_parts, (proj1 (Forall_forall _ _) Hi). }
  assert (Rg : Forall (fun it => oriented it = true /\ has_group it = true)
                      goal).
  { apply Forall_forall. intros it Hin. split.
    - now apply (proj1 (Forall_forall _ _) Og).
    - now apply well_formed_parts, (proj1 (Forall_forall _ _) Hg). }
  destruct (for_each_init_oriented initial Ri tl None) as [bo Ei].
  rewrite Ei.
  destruct (for_each_goal_oriented goal Rg (tl ++ map fetch_entry initial) bo)
    as [bo' Eg].
  rewrite Eg. cbn [get_basic_competitive_task.task_list].
  now rewrite <- app_assoc.
Qed.

Lemma transportation_fields (b1 b2 : string) (tl : list Bunch) :
  list_getitem (split ";" b1) 0 = list_getitem (split ";" b2) 0 ->
  list_getitem (split ";" b1) 1 = list_getitem (split ";" b2) 1 ->
  get_basic_transportation_task.execute (envelope "BTT" b1) tl
  = get_basic_transportation_task.execute (envelope "BTT" b2) tl.
Proof.
  intros H0 H1.
  unfold get_basic_transportation_task.execute, envelope. cbv zeta.
  rewrite !(tag_slice "BTT") by reflexivity.
  rewrite !(tag_strip "BTT") by reflexivity.
  rewrite !envelope_first, !envelope_last, !envelope_strip.
  now rewrite H0, H1.
Qed.

Lemma competitive_fields (b1 b2 : string) (tl : list Bunch) :
  list_getitem (split ";" b1) 0 = list_getitem (split ";" b2) 0 ->
  list_getitem (split ";" b1) 1 = list_getitem (split ";" b2) 1 ->
  get_basic_competitive_task.execute (envelope "CTT" b1) tl
  = get_basic_competitive_task.execute (envelope "CTT" b2) tl.
Proof.
  intros H0 H1.
  unfold get_basic_competitive_task.execute,
    get_basic_competitive_task.body, envelope. cbv zeta.
  rewrite !(tag_slice "CTT") by reflexivity.
  rewrite !(tag_strip "CTT") by reflexivity.
  rewrite !envelope_first, !envelope_last, !envelope_strip.
  now rewrite H0, H1.
Qed.

(** Whatever the transportation state leaves in the task list, on any
    input and with any outcome, satisfies a property that the caller's
    entries and all source and destination records satisfy. *)
Lemma transportation_invariant (P : Bunch -> Prop) (s : string)
  (tl : list Bunch) :
  (forall it, P (source_entry it)) ->
  (forall it, P (destination_entry it)) ->
  Forall P tl ->
  Forall P (snd (get_basic_transportation_task.execute s tl)).
Proof.
  intros Hs Hd H.
  unfold get_basic_transportation_task.execute, bind, lift, ret. cbv zeta.
  destruct (negb (slice s 0 3 =? "BTT")%string); [exact H|].
  destruct (getitem (slice s 3 (len s)) 0) as [c|e]; [|exact H].
  destruct (negb (c =? "<")%char); [exact H|].
  destruct (getitem _ (len _ - 1)) as [d|e]; [|exact H].
  destruct (negb (d =? ">")%char); [exact H|].
  destruct (list_getitem (split ";" _) 0) as [f0|e]; [|exact H].
  destruct (negb (slice f0 0 16 =? "initialsituation")%string); [exact H|].
  pose proof (for_each_init_Forall P
                (findall "<" ">" (slice f0 16 (len f0))) Hs tl H) as Hi.
  destruct (for_each get_basic_transportation_task.init_item _ tl)
    as [[u|e] l]; simpl in Hi; [|exact Hi].
  destruct (list_getitem (split ";" _) 1) as [f1|e]; [|exact Hi].
  destruct (negb (slice f1 0 13 =? "goalsituation")%string); [exact Hi|].
  pose proof (for_each_goal_Forall P
                (findall "<" ">" (slice f1 13 (len f1))) Hd l Hi) as Hg.
  destruct (for_each get_basic_transportation_task.goal_item _ l)
    as [[u'|e] l']; exact Hg.
Qed.

(** The transportation state never stores [V20]: the sibling of the
    competitive state does rename it. *)
Lemma transportation_renames_V20 (s : string) (tl : list Bunch) :
  Forall (fun b => ~ In "V20"%string (object_names b)) tl ->
  Forall (fun b => ~ In "V20"%string (object_names b))
         (snd (get_basic_transportation_task.execute s tl)).
Proof.
  apply transportation_invariant; intros it; apply rename_V20_clean.
Qed.

End Course.

(** * The checks that fail *)

Section FailingChecks.

Local Ltac refute :=
  let H := fresh in intros H; cbn [fst] in H; discriminate H.

Lemma initial_field_getitem (s : string) :
  list_getitem (split ";" (envelope_body s)) 0 = Ok (initial_field s).
Proof.
  unfold initial_field.
  destruct (split_cons ";" (envelope_body s)) as (h & t & E).
  rewrite E. apply list_getitem_0.
Qed.

Lemma goal_field_getitem (s : string) :
  (2 <= List.length (split ";" (envelope_body s)))%nat ->
  list_getitem (split ";" (envelope_body s)) 1 = Ok (goal_field s).
Proof.
  unfold goal_field. intros H.
  destruct (split ";" (envelope_body s)) as [|f0 [|f1 rest]];
    simpl in H; try lia.
  apply list_getitem_1.
Qed.

Lemma goal_field_getitem_inv (s f1 : string) :
  list_getitem (split ";" (envelope_body s)) 1 = Ok f1 ->
  (2 <= List.length (split ";" (envelope_body s)))%nat /\ goal_field s = f1.
Proof.
  unfold goal_field. intros H.
  destruct (split ";" (envelope_body s)) as [|f0 [|f1' rest]].
  - rewrite list_getitem_nil in H. discriminate.
  - discriminate.
  - rewrite list_getitem_1 in H. inversion H; subst. simpl. split; [lia|reflexivity].
Qed.

Lemma neq_negb_string (a b : string) : a <> b -> negb (a =? b)%string = true.
Proof. intros H. apply negb_true_iff. now apply String.eqb_neq. Qed.

Lemma neq_negb_ascii (a b : ascii) : a <> b -> negb (a =? b)%char = true.
Proof. intros H. apply negb_true_iff. now apply Ascii.eqb_neq. Qed.

Lemma negb_string_neq (a b : string) : negb (a =? b)%string = true -> a <> b.
Proof. intros H. apply negb_true_iff in H. now apply String.eqb_neq. Qed.

Lemma negb_ascii_neq (a b : ascii) : negb (a =? b)%char = true -> a <> b.
Proof. intros H. apply negb_true_iff in H. now apply Ascii.eqb_neq. Qed.

Lemma negb_string_eq (a b : string) : negb (a =? b)%string = false -> a = b.
Proof. intros H. apply negb_false_iff in H. now apply String.eqb_eq. Qed.

Lemma negb_ascii_eq (a b : ascii) : negb (a =? b)%char = false -> a = b.
Proof. intros H. apply negb_false_iff in H. now apply Ascii.eqb_eq. Qed.

(** A failure outcome of the transportation state comes from one of the
    four checks. *)
Lemma transportation_failure_check (s : string) (tl : list Bunch) :
  fst (get_basic_transportation_task.execute s tl) = Ok wrong_task_format ->
  exists c, fails_at BTT s c.
Proof.
  unfold get_basic_transportation_task.execute, bind, lift, ret. cbv zeta.
  fold (envelope_body s). fold (remainder s).
  rewrite initial_field_getitem. fold (initial_entries s).
  destruct (negb (slice s 0 3 =? "BTT")%string) eqn:E1.
  { intros _. exists PrefixCheck. now apply negb_string_neq. }
  apply negb_string_eq in E1.
  destruct (getitem (remainder s) 0) as [c|e] eqn:E2; [|refute].
  destruct (negb (c =? "<")%char) eqn:E3.
  { intros _. exists EnvelopeCheck. split; [exact E1|].
    exists c. split; [exact E2|]. left. now apply negb_ascii_neq. }
  apply negb_ascii_eq in E3. subst c.
  destruct (getitem (remainder s) (len (remainder s) - 1)) as [d|e] eqn:E4;
    [|refute].
  destruct (negb (d =? ">")%char) eqn:E5.
  { intros _. exists EnvelopeCheck. split; [exact E1|].
    exists "<"%char. split; [exact E2|]. right. exists d.
    split; [exact E4|]. now apply negb_ascii_neq. }
  apply negb_ascii_eq in E5. subst d.
  destruct (negb (slice (initial_field s) 0 16 =? "initialsituation")%string)
    eqn:E7.
  { intros _. exists InitialLabelCheck.
    repeat split; try assumption. now apply negb_string_neq. }
  apply negb_string_eq in E7.
  rewrite (for_each_appends _ init_item_appends).
  destruct (fst (for_each get_basic_transportation_task.init_item
                   (initial_entries s) [])) as [[]|e] eqn:EL; [|refute].
  destruct (list_getitem (split ";" (envelope_body s)) 1) as [f1|e] eqn:E8;
    [|refute].
  apply goal_field_getitem_inv in E8 as [L <-].
  destruct (negb (slice (goal_field s) 0 13 =? "goalsituation")%string)
    eqn:E9.
  { intros _. exists GoalLabelCheck.
    repeat split; try assumption. now apply negb_string_neq. }
  destruct (for_each get_basic_transportation_task.goal_item _ _)
    as [[u|e] l]; refute.
Qed.

Lemma competitive_failure_check (s : string) (tl : list Bunch) :
  fst (get_basic_competitive_task.execute s tl) = Ok wrong_task_format ->
  exists c, fails_at CTT s c.
Proof.
  unfold get_basic_competitive_task.execute, get_basic_competitive_task.body,
    bind, lift, ret.
  cbv zeta. fold (envelope_body s). fold (remainder s).
  rewrite initial_field_getitem. fold (initial_entries s).
  destruct (negb (slice s 0 3 =? "CTT")%string) eqn:E1.
  { intros _. exists PrefixCheck. now apply negb_string_neq. }
  apply negb_string_eq in E1.
  destruct (getitem (remainder s) 0) as [c|e] eqn:E2; [|refute].
  destruct (negb (c =? "<")%char) eqn:E3.
  { intros _. exists EnvelopeCheck. split; [exact E1|].
    exists c. split; [exact E2|]. left. now apply negb_ascii_neq. }
  apply negb_ascii_eq in E3. subst c.
  destruct (getitem (remainder s) (len (remainder s) - 1)) as [d|e] eqn:E4;
    [|refute].
  destruct (negb (d =? ">")%char) eqn:E5.
  { intros _. exists EnvelopeCheck. split; [exact E1|].
    exists "<"%char. split; [exact E2|]. right. exists d.
    split; [exact E4|]. now apply negb_ascii_neq. }
  apply negb_ascii_eq in E5. subst d.
  destruct (negb (slice (initial_field s) 0 16 =? "initialsituation")%string)
    eqn:E7.
  { intros _. exists InitialLabelCheck.
    repeat split; try assumption. now apply negb_string_neq. }
  apply negb_string_eq in E7.
  rewrite (for_each_framed _ init_item_framed _ tl None).
  destruct (for_each get_basic_competitive_task.init_item (initial_entries s)
              (get_basic_competitive_task.mkFrame [] None))
    as [[[]|e] [recs bo]] eqn:EL;
    cbn [fst snd get_basic_competitive_task.task_list
           get_basic_competitive_task.base_orientation];
    [|refute].
  destruct (list_getitem (split ";" (envelope_body s)) 1) as [f1|e] eqn:E8;
    [|refute].
  apply goal_field_getitem_inv in E8 as [L <-].
  destruct (negb (slice (goal_field s) 0 13 =? "goalsituation")%string)
    eqn:E9.
  { intros _. exists GoalLabelCheck.
    repeat split; try assumption.
    - cbn [initial_loop_ok]. now rewrite EL.
    - now apply negb_string_neq. }
  destruct (for_each get_basic_competitive_task.goal_item _ _)
    as [[u|e] l]; refute.
Qed.

End FailingChecks.

Section FailingChecksForward.

Lemma envelope_fails_run {S : Type} (r : string) (k : M S Outcome) (st : S) :
  envelope_fails r ->
  bind (lift (getitem r 0))
    (fun first =>
       bind (if negb (first =? "<")%char then ret true
             else bind (lift (getitem r (len r - 1)))
                    (fun last => ret (negb (last =? ">")%char)))
         (fun malformed : bool =>
            if malformed then ret wrong_task_format else k)) st
  = (Ok wrong_task_format, st).
Proof.
  intros (c & Hc & H). unfold bind, lift, ret. rewrite Hc.
  destruct (negb (c =? "<")%char) eqn:E; [reflexivity|].
  destruct H as [H|(d & Hd & H)].
  - apply neq_negb_ascii in H. congruence.
  - rewrite Hd, (neq_negb_ascii _ _ H). reflexivity.
Qed.

Lemma envelope_ok_run {S : Type} (r : string) (k : M S Outcome) (st : S) :
  envelope_ok r ->
  bind (lift (getitem r 0))
    (fun first =>
       bind (if negb (first =? "<")%char then ret true
             else bind (lift (getitem r (len r - 1)))
                    (fun last => ret (negb (last =? ">")%char)))
         (fun malformed : bool =>
            if malformed then ret wrong_task_format else k)) st
  = k st.
Proof.
  intros [H0 H1]. unfold bind, lift, ret. rewrite H0. cbn. rewrite H1. cbn.
  now destruct (k st) as [[o|e] st'].
Qed.

Lemma transportation_fails_at (s : string) (tl : list Bunch) (c : Check) :
  fails_at BTT s c ->
  get_basic_transportation_task.execute s tl
  = (Ok wrong_task_format, list_after_failure BTT s c tl).
Proof.
  unfold get_basic_transportation_task.execute. cbv zeta.
  fold (envelope_body s). fold (remainder s).
  destruct c; cbn [fails_at list_after_failure tag].
  - intros H. now rewrite (neq_negb_string _ _ H).
  - intros [T E]. rewrite T, String.eqb_refl. cbn [negb].
    now apply envelope_fails_run.
  - intros (T & E & L). rewrite T, String.eqb_refl. cbn [negb].
    rewrite envelope_ok_run by exact E.
    unfold bind, lift, ret. rewrite initial_field_getitem.
    now rewrite (neq_negb_string _ _ L).
  - intros (T & E & L & Loop & Two & G). rewrite T, String.eqb_refl.
    cbn [negb]. rewrite envelope_ok_run by exact E.
    unfold bind, lift, ret.
    rewrite initial_field_getitem, L, String.eqb_refl. cbn [negb].
    fold (initial_entries s).
    rewrite (for_each_appends _ init_item_appends).
    cbn [initial_loop_ok] in Loop. rewrite Loop.
    rewrite (goal_field_getitem s Two), (neq_negb_string _ _ G).
    reflexivity.
Qed.

Lemma competitive_fails_at (s : string) (tl : list Bunch) (c : Check) :
  fails_at CTT s c ->
  get_basic_competitive_task.execute s tl
  = (Ok wrong_task_format, list_after_failure CTT s c tl).
Proof.
  unfold get_basic_competitive_task.execute, get_basic_competitive_task.body.
  cbv zeta. fold (envelope_body s). fold (remainder s).
  destruct c; cbn [fails_at list_after_failure tag].
  - intros H. now rewrite (neq_negb_string _ _ H).
  - intros [T E]. rewrite T, String.eqb_refl. cbn [negb].
    now rewrite envelope_fails_run.
  - intros (T & E & L). rewrite T, String.eqb_refl. cbn [negb].
    rewrite envelope_ok_run by exact E.
    unfold bind, lift, ret. rewrite initial_field_getitem.
    now rewrite (neq_negb_string _ _ L).
  - intros (T & E & L & Loop & Two & G). rewrite T, String.eqb_refl.
    cbn [negb]. rewrite envelope_ok_run by exact E.
    unfold bind, lift, ret.
    rewrite initial_field_getitem, L, String.eqb_refl. cbn [negb].
    fold (initial_entries s).
    rewrite (for_each_framed _ init_item_framed _ tl None).
    cbn [initial_loop_ok] in Loop. unfold initial_records. cbv zeta.
    fold (initial_entries s).
    destruct (for_each get_basic_competitive_task.init_item
                (initial_entries s)
                (get_basic_competitive_task.mkFrame [] None))
      as [r [recs bo]].
    cbn [fst snd get_basic_competitive_task.task_list
           get_basic_competitive_task.base_orientation] in Loop |- *.
    subst r.
    rewrite (goal_field_getitem s Two), (neq_negb_string _ _ G).
    reflexivity.
Qed.

End FailingChecksForward.

Section InitialRecords.

Lemma for_each_init_ok_inv (items : list string) (tl : list Bunch) :
  fst (for_each get_basic_transportation_task.init_item items tl) = Ok tt ->
  Forall (fun it => has_group it = true) items.
Proof.
  revert tl. induction items as [|x items IH]; intros tl H; [constructor|].
  simpl in H. unfold bind in H. rewrite init_item_run in H.
  destruct (has_group x) eqn:G; [|discriminate].
  constructor; [exact G | eapply IH; exact H].
Qed.

Lemma competitive_init_item_one (item : string) (tl : list Bunch)
  (bo : option string) (fr : get_basic_competitive_task.Frame) :
  get_basic_competitive_task.init_item item
    (get_basic_competitive_task.mkFrame tl bo) = (Ok tt, fr) ->
  exists b, get_basic_competitive_task.task_list fr = tl ++ [b].
Proof.
  unfold get_basic_competitive_task.init_item, bind, lift, ret, modify,
    get_state, get_basic_competitive_task.read_base_orientation,
    get_basic_competitive_task.assign_base_orientation,
    get_basic_competitive_task.append, bind, lift, ret.
  cbv zeta.
  destruct (getitem item 0) as [c|e]; [|discriminate].
  destruct (Ascii.eqb c "D"); [|destruct (Ascii.eqb c "S")];
    cbn [fst snd get_basic_competitive_task.task_list
           get_basic_competitive_task.base_orientation];
    (destruct (list_getitem (findall "(" ")" _) 0); [|discriminate]);
    (destruct (list_getitem (split "(" _) 0); [|discriminate]);
    cbn [fst snd get_basic_competitive_task.task_list
           get_basic_competitive_task.base_orientation];
    try (destruct bo; [|discriminate]);
    intros [= <-]; eexists; reflexivity.
Qed.

Lemma competitive_init_loop_count (items : list string) :
  forall tl bo fr,
    for_each get_basic_competitive_task.init_item items
      (get_basic_competitive_task.mkFrame tl bo) = (Ok tt, fr) ->
    List.length (get_basic_competitive_task.task_list fr)
    = (List.length tl + List.length items)%nat.
Proof.
  induction items as [|x items IH]; intros tl bo fr H.
  - simpl in H. unfold ret in H. inversion H; subst. simpl. lia.
  - simpl in H. unfold bind in H.
    destruct (get_basic_competitive_task.init_item x _)
      as [[[]|e] [tl1 bo1]] eqn:E; [|discriminate].
    apply competitive_init_item_one in E as [b E]. simpl in E. subst tl1.
    apply IH in H. rewrite H, List.length_app. simpl. lia.
Qed.

(** When the loop over the initial situation ends without an exception,
    it has appended one record per entry; in the transportation state
    these are the source records of the entries, in order. *)
Lemma initial_records_complete (t : SituationTask) (s : string) :
  initial_loop_ok t s ->
  List.length (initial_records t (initial_field s))
  = List.length (initial_entries s) /\
  (t = BTT ->
   initial_records t (initial_field s)
   = map source_entry (initial_entries s)).
Proof.
  destruct t; cbn [initial_loop_ok]; unfold initial_records; cbv zeta;
    fold (initial_entries s); intros H.
  - apply for_each_init_ok_inv in H.
    rewrite (for_each_init_ok _ [] H). simpl.
    split; [apply length_map | reflexivity].
  - split; [|discriminate].
    destruct (for_each get_basic_competitive_task.init_item _ _)
      as [r fr] eqn:E.
    simpl in H |- *. subst r.
    now rewrite (competitive_init_loop_count _ _ _ _ E).
Qed.

End InitialRecords.

(** * The claims of the specification *)

(** C1, as the specification has it, fails: when the label of the goal
    situation is wrong, the failure outcome comes with the record of the
    initial situation already appended. *)
Lemma failure_after_append :
  get_basic_transportation_task.execute
    "BTT<initialsituation(<S1,(A)>);finalsituation(<S2,(A)>)>" []
  = (Ok wrong_task_format, [source_entry "S1,(A)"]) /\
  snd (get_basic_competitive_task.execute
         "CTT<initialsituation(<S1,(A)>);finalsituation(<S2,(A)>)>" [])
  <> [].
Proof. vm_compute. split; [reflexivity | discriminate]. Qed.

(** C1, amended.  The failure outcome is returned exactly when one of the
    four checks fails.  When it is the check of the prefix, of the
    envelope or of the label of the initial situation, the task list is
    left as the caller gave it.  When it is the check of the label of the
    goal situation, the list is the caller's list followed by the records
    of the initial situation, one per entry (in the transportation state
    the source records of the entries, in order), which were appended
    before that check. *)
Theorem failure_task_list (t : SituationTask) (s : string) (tl : list Bunch) :
  (fst (execute_of t s tl) = Ok wrong_task_format <->
   exists c, fails_at t s c) /\
  (fails_at t s PrefixCheck \/ fails_at t s EnvelopeCheck \/
   fails_at t s InitialLabelCheck ->
   execute_of t s tl = (Ok wrong_task_format, tl)) /\
  (fails_at t s GoalLabelCheck ->
   execute_of t s tl
   = (Ok wrong_task_format, tl ++ initial_records t (initial_field s)) /\
   List.length (initial_records t (initial_field s))
   = List.length (initial_entries s) /\
   (t = BTT ->
    initial_records t (initial_field s)
    = map source_entry (initial_entries s))).
Proof.
  assert (F : forall c, fails_at t s c ->
                        execute_of t s tl
                        = (Ok wrong_task_format,
                           list_after_failure t s c tl)).
  { intros c. destruct t; cbn [execute_of];
      [apply transportation_fails_at | apply competitive_fails_at]. }
  split; [split|split].
  - destruct t; cbn [execute_of];
      [apply transportation_failure_check | apply competitive_failure_check].
  - intros [c Hc]. now rewrite (F c Hc).
  - intros [H|[H|H]]; now rewrite (F _ H).
  - intros H. split; [now rewrite (F _ H)|].
    apply initial_records_complete.
    now destruct H as (_ & _ & _ & L & _).
Qed.

Lemma failure_task_list_witness :
  execute_of BTT "BTT<initialsituation(<S1,(A)>);finalsituation()>" []
  = (Ok wrong_task_format,
     [] ++ initial_records BTT
             (initial_field
                "BTT<initialsituation(<S1,(A)>);finalsituation()>")) /\
  execute_of CTT "CTT(initialsituation(<S1,(A)>);goalsituation())" []
  = (Ok wrong_task_format, []).
Proof.
  split.
  - destruct (failure_task_list BTT
                "BTT<initialsituation(<S1,(A)>);finalsituation()>" [])
      as (_ & _ & Goal).
    apply Goal. cbn [fails_at].
    split; [reflexivity|]. split; [split; reflexivity|].
    split; [reflexivity|]. split; [reflexivity|].
    split; [vm_compute; lia | vm_compute; discriminate].
  - destruct (failure_task_list CTT
                "CTT(initialsituation(<S1,(A)>);goalsituation())" [])
      as (_ & Early & _).
    apply Early. right. left. split; [reflexivity|].
    exists "("%char. split; [reflexivity|]. left. discriminate.
Defined.

(** C2.  The states do raise on malformed data: a string that is just the
    tag, a body without [;], and an entry without a parenthesised group
    each end in an uncaught [IndexError]. *)
Theorem malformed_input_raises (t : SituationTask) (tl : list Bunch) :
  execute_of t (tag t) tl = (Raise IndexError, tl) /\
  execute_of t (tag t +++ "<initialsituation()>") tl
  = (Raise IndexError, tl) /\
  execute_of t (tag t +++ "<initialsituation(<S1,M20>);goalsituation()>") tl
  = (Raise IndexError, tl).
Proof. destruct t; repeat split; reflexivity. Qed.

(** C3, as the specification has it, fails: a body of three fields is
    accepted and its first two fields are parsed. *)
Lemma three_fields_accepted :
  let s := "BTT<initialsituation(<S1,(A)>);goalsituation(<S2,(B)>);third>"%string in
  List.length (split ";" (envelope_body s)) = 3%nat /\
  get_basic_transportation_task.execute s []
  = (Ok task_received,
     [source_entry "S1,(A)"; destination_entry "S2,(B)"]).
Proof. vm_compute. split; reflexivity. Qed.

(** C3, amended.  Only the first two fields of the body are read: when the
    body has at least two fields, further fields after them change neither
    the outcome nor the task list. *)
Theorem extra_fields_ignored (t : SituationTask) (body extra : string)
  (tl : list Bunch) (H : (2 <= List.length (split ";" body))%nat) :
  execute_of t (envelope (tag t) (body +++ ";" +++ extra)) tl
  = execute_of t (envelope (tag t) body) tl.
Proof.
  assert (E : list_getitem (split ";" (body +++ ";" +++ extra)) 0
              = list_getitem (split ";" body) 0 /\
              list_getitem (split ";" (body +++ ";" +++ extra)) 1
              = list_getitem (split ";" body) 1).
  { rewrite split_semicolon.
    destruct (split ";" body) as [|f0 [|f1 rest]]; simpl in H; try lia.
    cbn [app]. now rewrite !list_getitem_0, !list_getitem_1. }
  destruct E as [E0 E1].
  destruct t; cbn [tag execute_of].
  - now apply transportation_fields.
  - now apply competitive_fields.
Qed.

Lemma extra_fields_ignored_witness :
  execute_of CTT
    (envelope "CTT"
       ("initialsituation(<S1,(A)>);goalsituation(<D2,(B)>)" +++ ";" +++
        "third;fourth")) []
  = execute_of CTT
      (envelope "CTT" "initialsituation(<S1,(A)>);goalsituation(<D2,(B)>)") [].
Proof.
  apply (extra_fields_ignored CTT
           "initialsituation(<S1,(A)>);goalsituation(<D2,(B)>)"
           "third;fourth" []).
  vm_compute. lia.
Defined.

(** C4.  The competitive state stores object tokens as they were received:
    [V20] is kept in the object lists of both situations. *)
Theorem competitive_keeps_V20 :
  let r := get_basic_competitive_task.execute
             "CTT<initialsituation(<S1,(V20)>);goalsituation(<D1,(M20,V20)>)>"
             [] in
  fst r = Ok task_received /\
  map object_names (snd r) = [["V20"]; ["M20"; "V20"]]%string.
Proof. vm_compute. split; reflexivity. Qed.

(** C5.  In the competitive state a location code that starts with neither
    [D] nor [S] is not rejected: the entry gets the orientation assigned
    for an earlier entry, and when there is no earlier assignment the use
    of [base_orientation] raises [UnboundLocalError]. *)
Theorem competitive_orientation_unmapped :
  (let r := get_basic_competitive_task.execute
              "CTT<initialsituation(<D1,(A)><T1,(B)>);goalsituation(<X9,(C)>)>"
              [] in
   fst r = Ok task_received /\
   map (fun b => (location b, orientation b)) (snd r)
   = [("D1", Some "W"); ("T1", Some "W"); ("X9", Some "W")]%string) /\
  get_basic_competitive_task.execute
    "CTT<initialsituation(<T1,(A)>);goalsituation(<D1,(B)>)>" []
  = (Raise UnboundLocalError, []).
Proof. vm_compute. repeat split; reflexivity. Qed.

(** C6.  The records of the initial situation of a transportation task have
    no configuration attribute, whatever precedes the object group; those
    of the goal situation have it. *)
Theorem transportation_source_without_configuration :
  let r := get_basic_transportation_task.execute
             "BTT<initialsituation(<S1,line(M20_100)>);goalsituation(<S3,line(S40_40_G)>)>"
             [] in
  fst r = Ok task_received /\
  map (fun b => (type b, object_config b)) (snd r)
  = [(Some "source", None); (Some "destination", Some "line")]%string.
Proof. vm_compute. split; reflexivity. Qed.

(** C7.  Order preservation: for well-formed entries, the transportation
    state appends one record per entry, in the order of the entries, the
    records of the initial situation (tagged source) before those of the
    goal situation (tagged destination); reordering the entries of a
    situation reorders its records in the same way.  The competitive state
    does the same for well-formed entries whose locations start with [D]
    or [S]. *)
Theorem order_preserved (initial goal : list string) (tl : list Bunch)
  (Hi : Forall (fun it => well_formed_entry it = true) initial)
  (Hg : Forall (fun it => well_formed_entry it = true) goal) :
  get_basic_transportation_task.execute (transportation_spec initial goal) tl
  = (Ok task_received,
     tl ++ map source_entry initial ++ map destination_entry goal) /\
  Forall (fun b => type b = Some "source"%string) (map source_entry initial) /\
  Forall (fun b => type b = Some "destination"%string)
         (map destination_entry goal) /\
  (forall initial' goal',
      Permutation initial initial' -> Permutation goal goal' ->
      get_basic_transportation_task.execute
        (transportation_spec initial' goal') tl
      = (Ok task_received,
         tl ++ map source_entry initial' ++ map destination_entry goal')) /\
  (Forall (fun it => oriented it = true) initial ->
   Forall (fun it => oriented it = true) goal ->
   forall initial' goal',
     Permutation initial initial' -> Permutation goal goal' ->
     get_basic_competitive_task.execute (competitive_spec initial' goal') tl
     = (Ok task_received,
        tl ++ map fetch_entry initial' ++ map place_entry goal')).
Proof.
  split; [now apply transportation_spec_run|].
  split; [apply Forall_map, Forall_forall; reflexivity|].
  split; [apply Forall_map, Forall_forall; reflexivity|].
  split.
  - intros initial' goal' Pi Pg.
    apply transportation_spec_run; eapply Permutation_Forall; eassumption.
  - intros Oi Og initial' goal' Pi Pg.
    apply competitive_spec_run; eapply Permutation_Forall; eassumption.
Qed.

Lemma example_entries_well_formed :
  Forall (fun it => well_formed_entry it = true) example_initial /\
  Forall (fun it => well_formed_entry it = true) example_goal.
Proof.
  split; repeat (apply Forall_cons; [vm_compute; reflexivity|]);
    apply Forall_nil.
Defined.

Lemma order_preserved_witness :
  get_basic_transportation_task.execute
    (transportation_spec example_initial example_goal) []
  = (Ok task_received,
     [] ++ map source_entry example_initial ++
     map destination_entry example_goal) /\
  get_basic_transportation_task.execute
    (transportation_spec (rev example_initial) (rev example_goal)) []
  = (Ok task_received,
     [] ++ map source_entry (rev example_initial) ++
     map destination_entry (rev example_goal)) /\
  get_basic_competitive_task.execute
    (competitive_spec (rev example_initial) (rev example_goal)) []
  = (Ok task_received,
     [] ++ map fetch_entry (rev example_initial) ++
     map place_entry (rev example_goal)).
Proof.
  destruct (order_preserved example_initial example_goal []
              (proj1 example_entries_well_formed)
              (proj2 example_entries_well_formed))
    as (Run & _ & _ & Perm & Competitive).
  split; [exact Run|]. split.
  - apply Perm; apply Permutation_rev.
  - apply Competitive; try apply Permutation_rev;
      repeat (apply Forall_cons; [reflexivity|]); apply Forall_nil.
Defined.

(** C8.  Reparse equivalence: when [get_task] obtains the specification
    string [s], [re_get_task] run on the same userdata with [s] stored in
    [task_spec_copy] ends with the same outcome and the same userdata, in
    particular with the same parsed task. *)
Theorem reparse_equivalence (Task : Type)
  (parse_task : string -> string -> option Task)
  (server : Request -> string) (ip : string)
  (ud : userdata.t Task) (s : string) (sent : list Request)
  (H : get_task_spec server ip ud = (Ok s, sent)) :
  re_get_task_execute parse_task
    (userdata.mk (userdata.test ud) (userdata.simulation ud)
                 (userdata.task ud) (Some s))
  = fst (get_task_execute parse_task server ip ud).
Proof.
  unfold get_task_execute, re_get_task_execute. rewrite H. simpl.
  now destruct (parse_task (userdata.test ud) s).
Qed.

Lemma reparse_equivalence_witness :
  re_get_task_execute tagged_parse
    (userdata.mk "PPT" false None (Some "PPT<S6,S5>"%string))
  = fst (get_task_execute tagged_parse (fun _ => "PPT<S6,S5>"%string)
           "192.168.51.167" (userdata.mk "PPT" false None None)).
Proof.
  apply (reparse_equivalence string tagged_parse (fun _ => "PPT<S6,S5>"%string)
           "192.168.51.167" (userdata.mk "PPT" false None None) "PPT<S6,S5>"
           [mkRequest "192.168.51.167" port team_name (Some true)]).
  reflexivity.
Defined.

(** C9.  Prefix validation: when the first three characters of the received
    string differ from the tag of the state (BTT for the transportation
    state, CTT for the competitive one), [execute] returns
    [wrong_task_format] and the task list is left as it was. *)
Theorem prefix_validation (t : SituationTask) (s : string)
  (tl : list Bunch) (H : slice s 0 3 <> tag t) :
  execute_of t s tl = (Ok wrong_task_format, tl).
Proof.
  apply String.eqb_neq in H.
  destruct t; simpl in H |- *.
  - unfold get_basic_transportation_task.execute. now rewrite H.
  - unfold get_basic_competitive_task.execute,
      get_basic_competitive_task.body.
    now rewrite H.
Qed.

Lemma prefix_validation_witness :
  execute_of BTT "CTT<initialsituation();goalsituation()>" []
  = (Ok wrong_task_format, []) /\
  execute_of CTT "btt" [] = (Ok wrong_task_format, []).
Proof.
  split.
  - apply (prefix_validation BTT). vm_compute. discriminate.
  - apply (prefix_validation CTT). vm_compute. discriminate.
Defined.

(** C10.  Simulation: with the simulation flag set, [get_task] sends
    nothing to the referee box and its result does not depend on what the
    referee box would answer; for each of the tests BNT, BMT, BTT and PPT
    the string it obtains, stores and parses is the fixed specification
    written for that test in [HARDCODED_SPECS], so that the outcome and the
    userdata are decided by [parse_task] on that string alone. *)
Theorem simulation_deterministic (Task : Type)
  (parse_task : string -> string -> option Task)
  (ud : userdata.t Task) (H : userdata.simulation ud = true) :
  (forall server ip, snd (get_task_execute parse_task server ip ud) = []) /\
  (forall server1 ip1 server2 ip2,
      get_task_execute parse_task server1 ip1 ud
      = get_task_execute parse_task server2 ip2 ud) /\
  (forall spec,
      In (userdata.test ud, spec)
         [("BNT", "BNT<(D,W,3),(S1,E,3),(T3,N,3),(S3,S,3),(T1,S,3),(D1,E,3),(S4,N,3),(S5,N,3),(T4,W,3),(T2,S,3),(S2,E,3),(EXIT,E,3)>");
          ("BMT", "BMT<D1,D1,D1,line(F20_20_B,R20,M20_100),D1>");
          ("BTT", "BTT<initialsituation(<S1,(M20_100,S40_40_G)><S2,(F20_20_G,S40_40_B,F20_20_B)>);goalsituation(<S3,line(S40_40_G,F20_20_G)><D1,zigzag(F20_20_B,S40_40_B,M20_100)>)>");
          ("PPT", "PPT<S6,S5>")]%string ->
      dict_getitem HARDCODED_SPECS (userdata.test ud) = Ok spec /\
      forall server ip,
        get_task_spec server ip ud = (Ok spec, []) /\
        get_task_execute parse_task server ip ud
        = match parse_task (userdata.test ud) spec with
          | Some tk =>
              (Ok task_received,
               userdata.mk (userdata.test ud) true (Some tk) (Some spec),
               [])
          | None =>
              (Ok wrong_task_format,
               userdata.mk (userdata.test ud) true (userdata.task ud)
                           (Some spec),
               [])
          end).
Proof.
  assert (S : forall server ip,
             get_task_spec server ip ud
             = (dict_getitem HARDCODED_SPECS (userdata.test ud), [])).
  { intros. unfold get_task_spec. now rewrite H. }
  split; [|split].
  - intros. unfold get_task_execute. rewrite S.
    destruct (dict_getitem _ _); [|reflexivity].
    now destruct (parse_task _ _).
  - intros. unfold get_task_execute. now rewrite !S.
  - intros spec Hin.
    assert (E : dict_getitem HARDCODED_SPECS (userdata.test ud) = Ok spec).
    { destruct Hin as [E|[E|[E|[E|[]]]]]; injection E as T P;
        rewrite <- T, <- P; reflexivity. }
    split; [exact E|]. intros server ip.
    split; [now rewrite S, E|].
    unfold get_task_execute. rewrite S, E, H. cbn.
    now destruct (parse_task _ _).
Qed.

Lemma simulation_deterministic_witness :
  snd (get_task_execute tagged_parse (fun _ => "PPT<S6,S5>"%string)
         "192.168.51.167" (userdata.mk "PPT" true None None)) = [] /\
  get_task_execute tagged_parse (fun _ => "BTT<>"%string) "192.168.51.167"
    (userdata.mk "PPT" true None None)
  = (Ok task_received,
     userdata.mk "PPT" true (Some "PPT<S6,S5>"%string)
                 (Some "PPT<S6,S5>"%string),
     []).
Proof.
  destruct (simulation_deterministic string tagged_parse
              (userdata.mk "PPT" true None None) eq_refl)
    as (Silent & _ & Table).
  split.
  - apply Silent.
  - apply (Table "PPT<S6,S5>"%string).
    cbn [userdata.test]. right. right. right. left. reflexivity.
Defined.

(** * The states on arbitrary input *)

Section Appending.

Lemma appending_ret {A : Type} (a : A) : appending (ret a).
Proof. intros tl. unfold ret. simpl. now rewrite app_nil_r. Qed.

Lemma appending_lift {A : Type} (r : Res A) : appending (lift r).
Proof. intros tl. unfold lift. simpl. now rewrite app_nil_r. Qed.

Lemma appending_bind {A B : Type} (m : M (list Bunch) A)
  (k : A -> M (list Bunch) B) :
  appending m -> (forall a, appending (k a)) -> appending (bind m k).
Proof.
  intros Hm Hk tl. unfold bind. rewrite (Hm tl).
  destruct (m []) as [[a|e] d]; simpl.
  - rewrite (Hk a (tl ++ d)), (Hk a d). simpl. now rewrite app_assoc.
  - reflexivity.
Qed.

Lemma appending_if {A : Type} (b : bool) (m1 m2 : M (list Bunch) A) :
  appending m1 -> appending m2 -> appending (if b then m1 else m2).
Proof. now destruct b. Qed.

Lemma appending_push (b : Bunch) :
  appending (modify (fun task_list => task_list ++ [b])).
Proof. intros tl. reflexivity. Qed.

Lemma appending_for_each {A : Type} (body : A -> M (list Bunch) unit)
  (items : list A) :
  (forall x, appending (body x)) -> appending (for_each body items).
Proof.
  intros Hb. induction items as [|x items IH]; simpl.
  - apply appending_ret.
  - apply appending_bind; [apply Hb | intros _; exact IH].
Qed.

Lemma transportation_appending (s : string) :
  appending (get_basic_transportation_task.execute s).
Proof.
  unfold get_basic_transportation_task.execute. cbv zeta.
  repeat first
    [ apply appending_ret
    | apply appending_lift
    | apply appending_if
    | apply appending_for_each; intros x; exact (init_item_appends x)
    | apply appending_for_each; intros x; exact (goal_item_appends x)
    | apply appending_bind; [|intros ?] ].
Qed.

End Appending.

Section Accepted.

Local Ltac refute :=
  let H := fresh in intros H; cbn [fst] in H; discriminate H.

Lemma negb_eqb_string (a b : string) :
  negb (a =? b)%string = false -> a = b.
Proof. intros H. apply negb_false_iff in H. now apply String.eqb_eq. Qed.

Lemma negb_eqb_ascii (a b : ascii) :
  negb (a =? b)%char = false -> a = b.
Proof. intros H. apply negb_false_iff in H. now apply Ascii.eqb_eq. Qed.

Lemma fields_of_getitems {A : Type} (l : list A) (x y : A) :
  list_getitem l 0 = Ok x -> list_getitem l 1 = Ok y ->
  exists rest, l = x :: y :: rest.
Proof.
  intros E0 E1. apply list_getitem_0_inv in E0 as [t ->].
  apply list_getitem_1_inv in E1 as [rest ->]. now exists rest.
Qed.

Lemma transportation_accepted (s : string) (tl : list Bunch) :
  fst (get_basic_transportation_task.execute s tl) = Ok task_received ->
  passes_checks BTT s.
Proof.
  unfold get_basic_transportation_task.execute, bind, lift, ret. cbv zeta.
  fold (envelope_body s). fold (remainder s).
  destruct (negb (slice s 0 3 =? "BTT")%string) eqn:E1;
    [refute|].
  destruct (getitem (remainder s) 0) as [c|e] eqn:E2;
    [|refute].
  destruct (negb (c =? "<")%char) eqn:E3; [refute|].
  destruct (getitem (remainder s) (len (remainder s) - 1)) as [d|e] eqn:E4;
    [|refute].
  destruct (negb (d =? ">")%char) eqn:E5; [refute|].
  destruct (list_getitem (split ";" (envelope_body s)) 0) as [f0|e] eqn:E6;
    [|refute].
  destruct (negb (slice f0 0 16 =? "initialsituation")%string) eqn:E7;
    [refute|].
  destruct (for_each get_basic_transportation_task.init_item _ tl)
    as [[u|e] l]; [|refute].
  destruct (list_getitem (split ";" (envelope_body s)) 1) as [f1|e] eqn:E8;
    [|refute].
  destruct (negb (slice f1 0 13 =? "goalsituation")%string) eqn:E9;
    [refute|].
  intros _.
  apply negb_eqb_string in E1, E7, E9. apply negb_eqb_ascii in E3, E5.
  subst c d. destruct (fields_of_getitems _ _ _ E6 E8) as [rest F].
  repeat split; try assumption. now exists f0, f1, rest.
Qed.

Lemma competitive_accepted (s : string) (tl : list Bunch) :
  fst (get_basic_competitive_task.execute s tl) = Ok task_received ->
  passes_checks CTT s.
Proof.
  unfold get_basic_competitive_task.execute, get_basic_competitive_task.body,
    bind, lift, ret.
  cbv zeta. fold (envelope_body s). fold (remainder s).
  destruct (negb (slice s 0 3 =? "CTT")%string) eqn:E1;
    [refute|].
  destruct (getitem (remainder s) 0) as [c|e] eqn:E2;
    [|refute].
  destruct (negb (c =? "<")%char) eqn:E3; [refute|].
  destruct (getitem (remainder s) (len (remainder s) - 1)) as [d|e] eqn:E4;
    [|refute].
  destruct (negb (d =? ">")%char) eqn:E5; [refute|].
  destruct (list_getitem (split ";" (envelope_body s)) 0) as [f0|e] eqn:E6;
    [|refute].
  destruct (negb (slice f0 0 16 =? "initialsituation")%string) eqn:E7;
    [refute|].
  destruct (for_each get_basic_competitive_task.init_item _ _)
    as [[u|e] l]; [|refute].
  destruct (list_getitem (split ";" (envelope_body s)) 1) as [f1|e] eqn:E8;
    [|refute].
  destruct (negb (slice f1 0 13 =? "goalsituation")%string) eqn:E9;
    [refute|].
  intros _.
  apply negb_eqb_string in E1, E7, E9. apply negb_eqb_ascii in E3, E5.
  subst c d. destruct (fields_of_getitems _ _ _ E6 E8) as [rest F].
  repeat split; try assumption. now exists f0, f1, rest.
Qed.

End Accepted.

Section TransportationCourse.

Import get_basic_transportation_task.

Lemma for_each_init_run (items : list string) (tl : list Bunch) :
  for_each init_item items tl
  = (if forallb has_group items then Ok tt else Raise IndexError,
     tl ++ map source_entry (good_prefix items)).
Proof.
  revert tl. induction items as [|x items IH]; intros tl.
  - simpl. unfold ret. now rewrite app_nil_r.
  - simpl. unfold bind. rewrite init_item_run.
    destruct (has_group x); simpl.
    + rewrite IH. now rewrite <- app_assoc.
    + now rewrite app_nil_r.
Qed.

Lemma for_each_goal_run (items : list string) (tl : list Bunch) :
  for_each goal_item items tl
  = (if forallb has_group items then Ok tt else Raise IndexError,
     tl ++ map destination_entry (good_prefix items)).
Proof.
  revert tl. induction items as [|x items IH]; intros tl.
  - simpl. unfold ret. now rewrite app_nil_r.
  - simpl. unfold bind. rewrite goal_item_run.
    destruct (has_group x); simpl.
    + rewrite IH. now rewrite <- app_assoc.
    + now rewrite app_nil_r.
Qed.

Lemma good_prefix_all (items : list string) :
  forallb has_group items = true -> good_prefix items = items.
Proof.
  induction items as [|x items IH]; simpl; [reflexivity|].
  intros H. apply andb_true_iff in H as [H1 H2]. now rewrite H1, IH.
Qed.

Lemma passes_checks_fields (t : SituationTask) (s : string) :
  passes_checks t s ->
  list_getitem (split ";" (envelope_body s)) 0 = Ok (initial_field s) /\
  list_getitem (split ";" (envelope_body s)) 1 = Ok (goal_field s) /\
  slice (initial_field s) 0 16 = "initialsituation"%string /\
  slice (goal_field s) 0 13 = "goalsituation"%string.
Proof.
  intros (_ & _ & _ & f0 & f1 & rest & F & L0 & L1).
  unfold initial_field, goal_field. rewrite F. simpl nth.
  now rewrite list_getitem_0, list_getitem_1.
Qed.

(** Once the checks pass, [execute] is the two loops. *)
Lemma transportation_checked (s : string) (tl : list Bunch) :
  passes_checks BTT s ->
  execute s tl
  = (if forallb has_group (initial_entries s)
     then if forallb has_group (goal_entries s)
          then Ok task_received else Raise IndexError
     else Raise IndexError,
     tl ++ map source_entry (good_prefix (initial_entries s)) ++
     (if forallb has_group (initial_entries s)
      then map destination_entry (good_prefix (goal_entries s))
      else [])).
Proof.
  intros P. destruct (passes_checks_fields BTT s P) as (F0 & F1 & L0 & L1).
  destruct P as (T & B & E & _). simpl in T.
  unfold execute, bind, lift, ret. cbv zeta.
  fold (envelope_body s). fold (remainder s).
  rewrite T, B, E, F0, F1, L0, L1, !String.eqb_refl, !Ascii.eqb_refl.
  cbn [negb]. fold (initial_entries s). fold (goal_entries s).
  rewrite for_each_init_run.
  destruct (forallb has_group (initial_entries s)).
  - rewrite for_each_goal_run.
    destruct (forallb has_group (goal_entries s));
      now rewrite <- app_assoc.
  - now rewrite app_nil_r.
Qed.

End TransportationCourse.

Section Preserves.

Context {S : Type} (I : S -> Prop).

Lemma preserves_ret {A : Type} (a : A) : preserves I (ret a).
Proof. intros st H. exact H. Qed.

Lemma preserves_lift {A : Type} (r : Res A) : preserves I (lift r).
Proof. intros st H. exact H. Qed.

Lemma preserves_bind {A B : Type} (m : M S A) (k : A -> M S B) :
  preserves I m -> (forall a, preserves I (k a)) -> preserves I (bind m k).
Proof.
  intros Hm Hk st H. unfold bind. specialize (Hm st H).
  destruct (m st) as [[a|e] st']; simpl in Hm.
  - now apply Hk.
  - exact Hm.
Qed.

Lemma preserves_if {A : Type} (b : bool) (m1 m2 : M S A) :
  preserves I m1 -> preserves I m2 -> preserves I (if b then m1 else m2).
Proof. now destruct b. Qed.

Lemma preserves_for_each {A : Type} (body : A -> M S unit) (items : list A) :
  (forall x, preserves I (body x)) -> preserves I (for_each body items).
Proof.
  intros Hb. induction items as [|x items IH]; simpl.
  - apply preserves_ret.
  - apply preserves_bind; [apply Hb | intros _; exact IH].
Qed.

End Preserves.

Section StringLengths.

Lemma take_length (n : nat) (s : string) :
  (String.length (take n s) <= n)%nat.
Proof.
  revert s. induction n as [|n IH]; intros [|c s]; simpl; try lia.
  specialize (IH s). lia.
Qed.

Lemma slice_0_2_length (s : string) : (String.length (slice s 0 2) <= 2)%nat.
Proof.
  unfold slice. etransitivity; [apply take_length|].
  unfold bound. destruct (len s); simpl; lia.
Qed.

End StringLengths.

Section CompetitiveCourse.

Import get_basic_competitive_task.

Lemma competitive_frame_push (tl : list Bunch) (loc o tk conf : string)
  (objs0 : string) (bo : option string) :
  Forall competitive_record tl ->
  (o = "W" \/ o = "E")%string ->
  (tk = "fetch object workspace" \/ tk = "place object in workspace")%string ->
  (bo = None \/ bo = Some "W" \/ bo = Some "E")%string ->
  competitive_frame
    (mkFrame (tl ++ [mkBunch None (slice loc 0 2) (Some o) (Some tk)
                             (split "," objs0) (Some conf)]) bo).
Proof.
  intros HF Ho Ht Hb. split; [|exact Hb]. cbn [task_list].
  apply Forall_app. split; [exact HF|]. constructor; [|constructor].
  unfold competitive_record. cbn.
  repeat split.
  - apply slice_0_2_length.
  - destruct Ho as [->| ->]; auto.
  - destruct Ht as [->| ->]; auto.
  - apply split_not_nil.
  - discriminate.
Qed.

Lemma init_item_preserves (item : string) :
  preserves competitive_frame (init_item item).
Proof.
  intros [tl bo] [HF HB]. cbn [task_list base_orientation] in HF, HB.
  unfold init_item, bind, lift, ret, modify, get_state,
    read_base_orientation, assign_base_orientation, append, bind, lift, ret.
  cbv zeta.
  destruct (getitem item 0) as [c|e]; [|now split].
  destruct (Ascii.eqb c "D"); [|destruct (Ascii.eqb c "S")];
    cbn [fst snd task_list base_orientation];
    (destruct (list_getitem (findall "(" ")" _) 0); [|now split; auto]);
    (destruct (list_getitem (split "(" _) 0); [|now split; auto]);
    cbn [fst snd task_list base_orientation].
  - apply competitive_frame_push; auto.
  - apply competitive_frame_push; auto.
  - destruct HB as [->|[->| ->]]; cbn [snd].
    + now split; auto.
    + apply competitive_frame_push; auto.
    + apply competitive_frame_push; auto.
Qed.

Lemma goal_item_preserves (item : string) :
  preserves competitive_frame (goal_item item).
Proof.
  intros [tl bo] [HF HB]. cbn [task_list base_orientation] in HF, HB.
  unfold goal_item, bind, lift, ret, modify, get_state,
    read_base_orientation, assign_base_orientation, append, bind, lift, ret.
  cbv zeta.
  destruct (getitem item 0) as [c|e]; [|now split].
  destruct (Ascii.eqb c "D"); [|destruct (Ascii.eqb c "S")];
    cbn [fst snd task_list base_orientation];
    (destruct (list_getitem (findall "(" ")" _) 0); [|now split; auto]);
    (destruct (list_getitem (split "(" _) 0); [|now split; auto]);
    cbn [fst snd task_list base_orientation].
  - apply competitive_frame_push; auto.
  - apply competitive_frame_push; auto.
  - destruct HB as [->|[->| ->]]; cbn [snd].
    + now split; auto.
    + apply competitive_frame_push; auto.
    + apply competitive_frame_push; auto.
Qed.

Lemma body_preserves (s : string) : preserves competitive_frame (body s).
Proof.
  unfold body. cbv zeta.
  repeat first
    [ apply preserves_ret
    | apply preserves_lift
    | apply preserves_if
    | apply preserves_for_each; intros x; apply init_item_preserves
    | apply preserves_for_each; intros x; apply goal_item_preserves
    | apply preserves_bind; [|intros ?] ].
Qed.

End CompetitiveCourse.

Section CompetitiveAppending.

Import get_basic_competitive_task.

Lemma framed_ret {A : Type} (a : A) : framed (ret (S := Frame) a).
Proof. intros tl bo. unfold ret. simpl. now rewrite app_nil_r. Qed.

Lemma framed_lift {A : Type} (r : Res A) : framed (lift (S := Frame) r).
Proof. intros tl bo. unfold lift. simpl. now rewrite app_nil_r. Qed.

Lemma framed_bind {A B : Type} (m : M Frame A) (k : A -> M Frame B) :
  framed m -> (forall a, framed (k a)) -> framed (bind m k).
Proof.
  intros Hm Hk tl bo. unfold bind. cbv zeta. rewrite (Hm tl bo).
  destruct (m (mkFrame [] bo)) as [[a|e] [d bo']]; simpl.
  - rewrite (Hk a (tl ++ d) bo'), (Hk a d bo'). simpl.
    now rewrite app_assoc.
  - reflexivity.
Qed.

Lemma framed_if {A : Type} (b : bool) (m1 m2 : M Frame A) :
  framed m1 -> framed m2 -> framed (if b then m1 else m2).
Proof. now destruct b. Qed.

Lemma body_framed (s : string) : framed (body s).
Proof.
  unfold body. cbv zeta.
  repeat first
    [ apply framed_ret
    | apply framed_lift
    | apply framed_if
    | apply for_each_framed; intros x; apply init_item_framed
    | apply for_each_framed; intros x; apply goal_item_framed
    | apply framed_bind; [|intros ?] ].
Qed.

Lemma competitive_appending (s : string) : appending (execute s).
Proof.
  intros tl. unfold execute. rewrite (body_framed s tl None).
  destruct (body s (mkFrame [] None)) as [r [d bo]]. reflexivity.
Qed.

Lemma competitive_invariant (s : string) (tl : list Bunch) :
  Forall competitive_record tl ->
  Forall competitive_record (snd (execute s tl)).
Proof.
  intros H. unfold execute.
  pose proof (body_preserves s (mkFrame tl None)) as P.
  destruct (body s (mkFrame tl None)) as [r fr]. simpl in *.
  apply P. split; [exact H | now left].
Qed.

End CompetitiveAppending.

Section Raises.

Lemma dict_getitem_missing (d : list (string * string)) (key : string) :
  ~ In key (map fst d) -> dict_getitem d key = Raise KeyError.
Proof.
  induction d as [|[k v] d IH]; simpl; intros H; [reflexivity|].
  destruct (String.eqb_spec k key) as [->|N].
  - exfalso. apply H. now left.
  - apply IH. intros Hin. apply H. now right.
Qed.

Lemma dict_getitem_raises (d : list (string * string)) (key : string)
  (e : Exn) :
  dict_getitem d key = Raise e -> e = KeyError.
Proof.
  induction d as [|[k v] d IH]; simpl; [now intros [= <-]|].
  destruct (String.eqb k key); [discriminate | exact IH].
Qed.

End Raises.

(** * Further properties *)

(** X1.  Both situation-based states only append to the task list, and
    neither the outcome nor the records appended depend on what the list
    held: a run on the list [tl] is the run on the empty list with its
    records put after [tl].  Hence two runs in a row leave the records of
    the first followed by those of the second. *)
Theorem task_list_only_extended (t : SituationTask) (s : string)
  (tl : list Bunch) :
  execute_of t s tl = (fst (execute_of t s []), tl ++ snd (execute_of t s []))
  /\
  forall t' s',
    snd (execute_of t' s' (snd (execute_of t s tl)))
    = tl ++ snd (execute_of t s []) ++ snd (execute_of t' s' []).
Proof.
  assert (A : forall t s, appending (execute_of t s)).
  { intros [|] s0; [apply transportation_appending
                   | apply competitive_appending]. }
  split; [apply A|].
  intros t' s'. rewrite (A t' s'), (A t s). simpl. now rewrite app_assoc.
Qed.

(** X2.  A specification is accepted only if it passed every format check:
    the tag, the outer [<] and [>], at least two fields in the body, and
    the labels of the first two fields. *)
Theorem accepted_passes_checks (t : SituationTask) (s : string)
  (tl : list Bunch)
  (H : fst (execute_of t s tl) = Ok task_received) :
  passes_checks t s.
Proof.
  destruct t; [eapply transportation_accepted | eapply competitive_accepted];
    exact H.
Qed.

Lemma accepted_passes_checks_witness :
  passes_checks CTT
    "CTT<initialsituation(<S1,(A)>);goalsituation(<D1,(A)>);remark>".
Proof.
  apply (accepted_passes_checks CTT
           "CTT<initialsituation(<S1,(A)>);goalsituation(<D1,(A)>);remark>"
           []).
  reflexivity.
Defined.

(** X3.  The transportation state accepts a specification exactly when it
    passes the format checks and every entry of the first two fields has a
    parenthesised group after its location; the task list is then the
    caller's list, one source record per entry of the first field and one
    destination record per entry of the second, in the order of the
    entries. *)
Theorem transportation_acceptance (s : string) (tl : list Bunch) :
  (fst (get_basic_transportation_task.execute s tl) = Ok task_received <->
   passes_checks BTT s /\
   forallb has_group (initial_entries s) = true /\
   forallb has_group (goal_entries s) = true) /\
  (fst (get_basic_transportation_task.execute s tl) = Ok task_received ->
   snd (get_basic_transportation_task.execute s tl)
   = tl ++ map source_entry (initial_entries s) ++
     map destination_entry (goal_entries s)).
Proof.
  assert (Only : fst (get_basic_transportation_task.execute s tl)
                 = Ok task_received ->
                 passes_checks BTT s /\
                 forallb has_group (initial_entries s) = true /\
                 forallb has_group (goal_entries s) = true).
  { intros H. pose proof (transportation_accepted s tl H) as P.
    split; [exact P|]. rewrite (transportation_checked s tl P) in H.
    simpl in H.
    destruct (forallb has_group (initial_entries s)); [|discriminate].
    destruct (forallb has_group (goal_entries s)); [|discriminate].
    now split. }
  split; [split; [exact Only|] |].
  - intros (P & Hi & Hg).
    now rewrite (transportation_checked s tl P), Hi, Hg.
  - intros H. destruct (Only H) as (P & Hi & Hg).
    rewrite (transportation_checked s tl P), Hi, Hg. simpl.
    now rewrite !good_prefix_all.
Qed.

Lemma transportation_acceptance_witness :
  snd (get_basic_transportation_task.execute
         "BTT<initialsituation <S1,x(A,V20)y>;goalsituation <D1,(B)> ;more>"
         [])
  = [] ++
    map source_entry
      (initial_entries
         "BTT<initialsituation <S1,x(A,V20)y>;goalsituation <D1,(B)> ;more>") ++
    map destination_entry
      (goal_entries
         "BTT<initialsituation <S1,x(A,V20)y>;goalsituation <D1,(B)> ;more>").
Proof.
  apply (transportation_acceptance
           "BTT<initialsituation <S1,x(A,V20)y>;goalsituation <D1,(B)> ;more>"
           []).
  reflexivity.
Defined.

(** X5.  Whatever the input and the outcome, every record the
    transportation state appends is tagged source or destination, has a
    location of at most two characters, no orientation and no task
    attribute, at least one object token, and no token [V20]. *)
Theorem transportation_records_shape (s : string) (tl : list Bunch) :
  exists recs,
    snd (get_basic_transportation_task.execute s tl) = tl ++ recs /\
    Forall transportation_record recs.
Proof.
  exists (snd (get_basic_transportation_task.execute s [])).
  split; [now rewrite (transportation_appending s tl)|].
  apply transportation_invariant; [| |constructor]; intros it;
    unfold transportation_record, source_entry, destination_entry,
      objects_of, rename_V20; cbn;
    (repeat split; auto using slice_0_2_length;
     [ destruct (split_cons "," (hd EmptyString
                   (findall "(" ")" (slice it 3 (len it))))) as (h & t & E);
       rewrite E; discriminate
     | apply rename_V20_clean ]).
Qed.

(** X6.  Whatever the input and the outcome, every record the competitive
    state appends has a location of at most two characters, orientation W
    or E, one of the two task names, at least one object token and a
    configuration attribute, and no type attribute. *)
Theorem competitive_records_shape (s : string) (tl : list Bunch) :
  exists recs,
    snd (get_basic_competitive_task.execute s tl) = tl ++ recs /\
    Forall competitive_record recs.
Proof.
  exists (snd (get_basic_competitive_task.execute s [])).
  split; [now rewrite (competitive_appending s tl)|].
  apply competitive_invariant. constructor.
Qed.

(** X7.  Envelope check: when the tag is right and the text after it is
    not empty but does not start with [<] or does not end with [>], both
    states return [wrong_task_format] and leave the task list as it was. *)
Theorem envelope_rejected (t : SituationTask) (r : string) (c d : ascii)
  (tl : list Bunch)
  (Hc : getitem r 0 = Ok c) (Hd : getitem r (len r - 1) = Ok d)
  (H : c <> "<"%char \/ d <> ">"%char) :
  execute_of t (tag t +++ r) tl = (Ok wrong_task_format, tl).
Proof.
  assert (E : (negb (c =? "<")%char = true) \/
              (negb (c =? "<")%char = false /\ negb (d =? ">")%char = true)).
  { destruct (Ascii.eqb_spec c "<") as [->|N]; [right|now left].
    split; [reflexivity|]. destruct H as [H|H]; [now elim H|].
    apply negb_true_iff. now apply Ascii.eqb_neq. }
  destruct t; cbn [tag execute_of];
    unfold get_basic_transportation_task.execute,
      get_basic_competitive_task.execute, get_basic_competitive_task.body,
      bind, lift, ret;
    cbv zeta;
    rewrite (tag_slice _ r 3) by reflexivity;
    rewrite (tag_strip _ r 3) by reflexivity;
    rewrite String.eqb_refl, Hc; cbn [negb];
    destruct E as [E|[E1 E2]].
  - now rewrite E.
  - now rewrite E1, Hd, E2.
  - now rewrite E.
  - now rewrite E1, Hd, E2.
Qed.

Lemma envelope_rejected_witness :
  execute_of BTT ("BTT" +++ "<initialsituation();goalsituation()") []
  = (Ok wrong_task_format, []).
Proof.
  apply (envelope_rejected BTT "<initialsituation();goalsituation()"
           "<" ")" []).
  - reflexivity.
  - reflexivity.
  - right. discriminate.
Defined.

(** X8.  Label of the initial situation: when the first field of the body
    does not start with [initialsituation], both states return
    [wrong_task_format] and leave the task list as it was. *)
Theorem initial_label_rejected (t : SituationTask) (body : string)
  (tl : list Bunch)
  (H : slice (nth 0 (split ";" body) EmptyString) 0 16
       <> "initialsituation"%string) :
  execute_of t (envelope (tag t) body) tl = (Ok wrong_task_format, tl).
Proof.
  destruct (split_cons ";" body) as (f0 & fs & F). rewrite F in H.
  cbn [nth] in H. apply String.eqb_neq in H.
  destruct t; cbn [tag execute_of];
    unfold get_basic_transportation_task.execute,
      get_basic_competitive_task.execute, get_basic_competitive_task.body,
      envelope, bind, lift, ret;
    cbv zeta;
    rewrite (tag_slice _ _ 3) by reflexivity;
    rewrite (tag_strip _ _ 3) by reflexivity;
    rewrite envelope_first, envelope_last, envelope_strip, F, list_getitem_0,
      String.eqb_refl, !Ascii.eqb_refl, H;
    reflexivity.
Qed.

Lemma initial_label_rejected_witness :
  execute_of CTT
    (envelope "CTT" "startsituation(<S1,(A)>);goalsituation(<D1,(A)>)") []
  = (Ok wrong_task_format, []).
Proof.
  apply (initial_label_rejected CTT
           "startsituation(<S1,(A)>);goalsituation(<D1,(A)>)" []).
  vm_compute. discriminate.
Defined.

(** X9.  A body without [;] is never answered with an outcome once its
    label is right: after the loop over the initial situation, reading the
    second field raises (unless the loop has raised before). *)
Theorem single_field_raises (t : SituationTask) (body : string)
  (tl : list Bunch)
  (Hs : contains ";" body = false)
  (Hl : slice body 0 16 = "initialsituation"%string) :
  exists e, fst (execute_of t (envelope (tag t) body) tl) = Raise e.
Proof.
  destruct t; cbn [tag execute_of];
    unfold get_basic_transportation_task.execute,
      get_basic_competitive_task.execute, get_basic_competitive_task.body,
      envelope, bind, lift, ret;
    cbv zeta;
    rewrite (tag_slice _ _ 3) by reflexivity;
    rewrite (tag_strip _ _ 3) by reflexivity;
    rewrite envelope_first, envelope_last, envelope_strip,
      (split_no_sep _ _ Hs), list_getitem_0,
      String.eqb_refl, !Ascii.eqb_refl, Hl, String.eqb_refl;
    cbn [negb].
  - destruct (for_each get_basic_transportation_task.init_item _ _)
      as [[u|e] l]; eexists; reflexivity.
  - destruct (for_each get_basic_competitive_task.init_item _ _)
      as [[u|e] l]; eexists; reflexivity.
Qed.

Lemma single_field_raises_witness :
  exists e,
    fst (execute_of BTT (envelope "BTT" "initialsituation(<S1,(A)>)") [])
    = Raise e.
Proof.
  apply (single_field_raises BTT "initialsituation(<S1,(A)>)" []);
    reflexivity.
Defined.

(** X10.  In the competitive state an entry whose location starts with [D]
    or [S] and that has an object group is always stored, with the
    orientation of its own letter (W for D, E for S) whatever orientation
    earlier entries left behind, and that orientation becomes the current
    one; this holds in both loops. *)
Theorem oriented_entry_record (item : string) (tl : list Bunch)
  (bo : option string)
  (Ho : oriented item = true) (Hg : has_group item = true) :
  get_basic_competitive_task.init_item item
    (get_basic_competitive_task.mkFrame tl bo)
  = (Ok tt,
     get_basic_competitive_task.mkFrame (tl ++ [fetch_entry item])
       (Some (orientation_of item))) /\
  get_basic_competitive_task.goal_item item
    (get_basic_competitive_task.mkFrame tl bo)
  = (Ok tt,
     get_basic_competitive_task.mkFrame (tl ++ [place_entry item])
       (Some (orientation_of item))) /\
  orientation (fetch_entry item)
  = Some (if String.prefix "D" item then "W" else "E")%string.
Proof.
  split; [now apply init_item_run_oriented|].
  split; [now apply goal_item_run_oriented|].
  destruct item as [|c r]; [discriminate|].
  cbn [fetch_entry orientation orientation_of String.prefix].
  destruct (Ascii.eqb_spec c "D") as [->|N].
  - simpl. now destruct r.
  - destruct (ascii_dec "D" c) as [E|_]; [now elim N|reflexivity].
Qed.

Lemma oriented_entry_record_witness :
  get_basic_competitive_task.init_item "D1,(M20)"
    (get_basic_competitive_task.mkFrame [] (Some "E"%string))
  = (Ok tt,
     get_basic_competitive_task.mkFrame ([] ++ [fetch_entry "D1,(M20)"])
       (Some (orientation_of "D1,(M20)"))).
Proof.
  apply (oriented_entry_record "D1,(M20)" [] (Some "E"%string));
    reflexivity.
Defined.

(** X11.  The renaming of [V20] keeps the number and the positions of the
    tokens, removes every [V20], leaves a list without [V20] as it is, and
    renaming twice is renaming once. *)
Theorem rename_V20_properties (objs : list string) :
  List.length (rename_V20 objs) = List.length objs /\
  ~ In "V20"%string (rename_V20 objs) /\
  (~ In "V20"%string objs -> rename_V20 objs = objs) /\
  rename_V20 (rename_V20 objs) = rename_V20 objs /\
  (forall i o, nth_error objs i = Some o -> o <> "V20"%string ->
               nth_error (rename_V20 objs) i = Some o).
Proof.
  assert (Keep : forall l, ~ In "V20"%string l -> rename_V20 l = l).
  { induction l as [|o l IH]; simpl; intros H; [reflexivity|].
    destruct (String.eqb_spec o "V20") as [->|N].
    - exfalso. apply H. now left.
    - f_equal. apply IH. intros Hin. apply H. now right. }
  split; [apply length_map|].
  split; [apply rename_V20_clean|].
  split; [apply Keep|].
  split; [apply Keep, rename_V20_clean|].
  intros i o Hi N. unfold rename_V20. rewrite nth_error_map, Hi. simpl.
  apply String.eqb_neq in N. now rewrite N.
Qed.

Section RoundTrips.

Lemma concat_cons_char (sep : string) (c : ascii) (h : string)
  (t : list string) :
  String.concat sep (String c h :: t) = String c (String.concat sep (h :: t)).
Proof. now destruct t. Qed.

Lemma join_split (sep : ascii) (s : string) :
  String.concat (String sep EmptyString) (split sep s) = s.
Proof.
  induction s as [|c s IH]; [reflexivity|]. cbn [split].
  destruct (split_cons sep s) as (h & t & E). rewrite E in IH |- *.
  destruct (Ascii.eqb_spec c sep) as [->|N].
  - change (String.concat (String sep EmptyString) (EmptyString :: h :: t))
      with (String sep (String.concat (String sep EmptyString) (h :: t))).
    now rewrite IH.
  - now rewrite concat_cons_char, IH.
Qed.

Lemma split_fields_plain (sep : ascii) (s : string) :
  Forall (fun f => contains sep f = false) (split sep s).
Proof.
  induction s as [|c s IH]; [now repeat constructor|]. cbn [split].
  destruct (Ascii.eqb c sep) eqn:E; [now constructor|].
  destruct (split sep s) as [|h t]; [now repeat constructor; simpl; rewrite E|].
  inversion IH; subst. constructor; [|assumption].
  simpl. now rewrite E.
Qed.

Lemma split_join (sep : ascii) (fields : list string) :
  fields <> [] ->
  Forall (fun f => contains sep f = false) fields ->
  split sep (String.concat (String sep EmptyString) fields) = fields.
Proof.
  intros N H. induction H as [|x fs Hx _ IH]; [now elim N|].
  destruct fs as [|y r]; [now apply split_no_sep|].
  change (String.concat (String sep EmptyString) (x :: y :: r))
    with (x +++ String sep (String.concat (String sep EmptyString) (y :: r))).
  rewrite split_app_sep, (split_no_sep _ _ Hx), IH by discriminate.
  reflexivity.
Qed.

Lemma lazy_until_plain (close : ascii) (s w r : string) :
  lazy_until close s = Some (w, r) ->
  contains close w = false /\ contains newline w = false /\
  s = w +++ String close r.
Proof.
  revert w. induction s as [|c s IH]; simpl; intros w H; [discriminate|].
  destruct (Ascii.eqb_spec c close) as [->|N].
  - now inversion H.
  - destruct (Ascii.eqb c newline) eqn:E; [discriminate|].
    destruct (lazy_until close s) as [[w' r']|]; [|discriminate].
    inversion H; subst. destruct (IH w' eq_refl) as (H1 & H2 & H3).
    simpl. rewrite H1, H2, E.
    apply Ascii.eqb_neq in N. rewrite N. now rewrite H3 at 1.
Qed.

Lemma findall_fuel_plain (open close : ascii) (n : nat) (s : string) :
  Forall (fun w => contains close w = false /\ contains newline w = false)
         (findall_fuel n open close s).
Proof.
  revert s. induction n as [|n IH]; intros s; [constructor|].
  destruct s as [|c s]; [constructor|]. simpl.
  destruct (Ascii.eqb c open); [|apply IH].
  destruct (lazy_until close s) as [[w r]|] eqn:E; [|apply IH].
  constructor; [|apply IH].
  now destruct (lazy_until_plain _ _ _ _ E) as (H1 & H2 & _).
Qed.

End RoundTrips.

(** X12.  Splitting and joining are inverse: the fields of [s.split(sep)]
    joined with [sep] give back [s], no field contains [sep], and a
    non-empty list of fields without [sep] is what splitting their join
    gives.  This is how the body is cut at [;] and the object group at
    [,]. *)
Theorem split_round_trip (sep : ascii) (s : string) :
  String.concat (String sep EmptyString) (split sep s) = s /\
  Forall (fun f => contains sep f = false) (split sep s) /\
  (forall fields,
      fields <> [] ->
      Forall (fun f => contains sep f = false) fields ->
      split sep (String.concat (String sep EmptyString) fields) = fields).
Proof.
  split; [apply join_split|].
  split; [apply split_fields_plain|].
  intros fields. apply split_join.
Qed.

(** X13.  The entries the loops work on: every match of the pattern for
    [<...>] (or for [(...)]) is free of the closing character and of
    newlines; and scanning the text [<i1>...<in>], followed by text without
    [<], gives back exactly the entries [i1 ... in] when they are free of
    [>] and of newlines. *)
Theorem findall_matches (open close : ascii) (s : string) :
  Forall (fun w => contains close w = false /\ contains newline w = false)
         (findall open close s) /\
  (forall items post,
      Forall (fun it => plain_entry it = true) items ->
      contains "<" post = false ->
      findall "<" ">" (entries items +++ post) = items).
Proof.
  split; [apply findall_fuel_plain|].
  intros items post. apply findall_entries.
Qed.

(** X14.  In simulation a test name without an entry in [HARDCODED_SPECS]
    (any name but BNT, BMT, BTT and PPT) makes [get_task] raise [KeyError]
    before anything is parsed or stored, and without any request. *)
Theorem simulation_unknown_test (Task : Type)
  (parse_task : string -> string -> option Task)
  (server : Request -> string) (ip : string) (ud : userdata.t Task)
  (Hs : userdata.simulation ud = true)
  (Ht : ~ In (userdata.test ud) ["BNT"; "BMT"; "BTT"; "PPT"]%string) :
  get_task_execute parse_task server ip ud = (Raise KeyError, ud, []).
Proof.
  unfold get_task_execute, get_task_spec. rewrite Hs. cbn [negb].
  now rewrite (dict_getitem_missing HARDCODED_SPECS (userdata.test ud) Ht).
Qed.

Lemma simulation_unknown_test_witness :
  get_task_execute tagged_parse (fun _ => "CTT<>"%string) "192.168.51.167"
    (userdata.mk "CTT" true None None)
  = (Raise KeyError, userdata.mk "CTT" true None None, []).
Proof.
  apply (simulation_unknown_test string tagged_parse (fun _ => "CTT<>"%string)
           "192.168.51.167" (userdata.mk "CTT" true None None) eq_refl).
  simpl. intros [H|[H|[H|[H|[]]]]]; discriminate H.
Defined.

(** X15.  Outside simulation [get_task] sends exactly one request, with
    the module's address, port 11111, team b-it-bots and the flag set, and
    its outcome and userdata are those of parsing the answer.  The address
    is the parameter [refbox_ip] when it is set and 192.168.51.167 when it
    is not; computing it never raises. *)
Theorem referee_request (Task : Type)
  (parse_task : string -> string -> option Task)
  (server : Request -> string) (params : list (string * string))
  (ud : userdata.t Task) (Hs : userdata.simulation ud = false) :
  exists ip,
    module_ip params = Ok ip /\
    (forall v, get_param params "refbox_ip" = Ok v -> ip = v) /\
    (~ In "refbox_ip"%string (map fst params) ->
     ip = "192.168.51.167"%string) /\
    let rq := mkRequest ip "11111" "b-it-bots" (Some true) in
    let parsed :=
      re_get_task_execute parse_task
        (userdata.mk (userdata.test ud) false (userdata.task ud)
                     (Some (server rq))) in
    get_task_execute parse_task server ip ud = (fst parsed, snd parsed, [rq]).
Proof.
  assert (Run : forall ip,
             let rq := mkRequest ip "11111" "b-it-bots" (Some true) in
             let parsed :=
               re_get_task_execute parse_task
                 (userdata.mk (userdata.test ud) false (userdata.task ud)
                              (Some (server rq))) in
             get_task_execute parse_task server ip ud
             = (fst parsed, snd parsed, [rq])).
  { intros ip. unfold get_task_execute, get_task_spec, re_get_task_execute.
    rewrite Hs. cbn. now destruct (parse_task _ _). }
  unfold module_ip, get_param.
  destruct (dict_getitem params "refbox_ip") as [v|e] eqn:E.
  - exists v. split; [reflexivity|]. split; [now intros v' [= <-]|].
    split; [|apply Run].
    intros N. now rewrite (dict_getitem_missing _ _ N) in E.
  - rewrite (dict_getitem_raises _ _ _ E).
    exists "192.168.51.167"%string. split; [reflexivity|].
    split; [discriminate|]. split; [reflexivity | apply Run].
Qed.

Lemma referee_request_witness :
  exists ip,
    module_ip [("refbox_port", "11111")]%string = Ok ip /\
    ip = "192.168.51.167"%string.
Proof.
  destruct (referee_request string tagged_parse (fun _ => "PPT<S6,S5>"%string)
              [("refbox_port", "11111")]%string
              (userdata.mk "PPT" false None None) eq_refl)
    as (ip & E & _ & F & _).
  exists ip. split; [exact E|]. apply F. simpl. intros [H|[]]. discriminate H.
Defined.

(** X16.  Running [re_get_task] again on the userdata it left gives the
    same result as the first run: the stored specification is parsed anew
    with the same outcome, and nothing else changes. *)
Theorem re_get_task_idempotent (Task : Type)
  (parse_task : string -> string -> option Task) (ud : userdata.t Task) :
  re_get_task_execute parse_task (snd (re_get_task_execute parse_task ud))
  = re_get_task_execute parse_task ud.
Proof.
  destruct ud as [test simulation task [spec|]]; [|reflexivity].
  unfold re_get_task_execute. cbn.
  destruct (parse_task test spec) as [tk|] eqn:P; cbn; now rewrite P.
Qed.
